(** * prompt_tools: the session controller (src/core/controller.py)

    A shallow embedding of [Controller] and of the parts of its
    collaborators ([PromptsManager], [PresetsManager], [GroupsManager])
    that its methods call.  The collaborators live outside the sources at
    hand; their models below are taken from the specification and say so
    in their doc comments.

    Effects are modelled by a small monad: the controller state is
    threaded explicitly, a Python exception is an explicit outcome that
    keeps the state reached when it was raised (no rollback), and every
    call to [PromptsManager.activate_prompts] is recorded in a trace, so
    that statements about what reaches that call can be made. *)

From Stdlib Require Import String Ascii List ZArith Bool Lia Sorted.
Import ListNotations.
Local Open Scope string_scope.
Local Open Scope list_scope.
Local Open Scope Z_scope.

Module PromptTools.

(** ** Data model *)

(** Where a prompt comes from (an extracted one or one added by the user). *)
Inductive origin := Extracted | UserCreated.

(** A prompt record: a Python dict with a name, a content and an origin. *)
Record prompt := mkPrompt {
  name : string;
  content : string;
  prompt_origin : origin }.

Definition origin_eqb (a b : origin) : bool :=
  match a, b with
  | Extracted, Extracted | UserCreated, UserCreated => true
  | _, _ => false
  end.

(** Python's [==] on prompt dicts: structural equality. *)
Definition prompt_eqb (p q : prompt) : bool :=
  String.eqb (name p) (name q) && String.eqb (content p) (content q)
  && origin_eqb (prompt_origin p) (prompt_origin q).

(** Python's [p in l] on a list of prompt dicts. *)
Definition prompt_in (p : prompt) (l : list prompt) : bool :=
  existsb (prompt_eqb p) l.

(** A preset of the store: its ordered prompt list and its prefix text. *)
Record preset := mkPreset { prompts : list prompt; prefix : string }.

(** The aggregate statistics returned by [refresh_prompts]. *)
Record stats := mkStats { preset_count : nat; prompt_count : nat }.

(** A Python dict with string keys, as an association list in insertion
    order (keys are unique; [lookup] returns the first binding). *)
Fixpoint lookup {A} (k : string) (l : list (string * A)) : option A :=
  match l with
  | [] => None
  | (k', v) :: l' => if String.eqb k k' then Some v else lookup k l'
  end.

(** [d[k] = v]: replaces the binding of [k], or appends one. *)
Fixpoint assoc_set {A} (k : string) (v : A) (l : list (string * A))
  : list (string * A) :=
  match l with
  | [] => [(k, v)]
  | (k', v') :: l' =>
      if String.eqb k k' then (k, v) :: l' else (k', v') :: assoc_set k v l'
  end.

(** The session state: the fields of [Controller] and of its managers that
    the modelled methods read or write, with the two kinds of files the
    managers persist (groups and activation markers, one entry per
    preset). *)
Record state := mkState {
  current_preset_name : string;                 (* Controller.current_preset_name *)
  presets : list (string * preset);             (* PresetsManager.presets *)
  active_prompts : list prompt;                 (* PromptsManager.active_prompts *)
  prompt_groups : list (string * list Z);       (* GroupsManager.prompt_groups *)
  group_files : list (string * list (string * list Z));  (* persisted groups *)
  activation_files : list (string * list prompt) (* persisted markers *) }.

Definition set_current (n : string) (s : state) : state :=
  mkState n (presets s) (active_prompts s) (prompt_groups s)
    (group_files s) (activation_files s).
Definition set_presets (p : list (string * preset)) (s : state) : state :=
  mkState (current_preset_name s) p (active_prompts s) (prompt_groups s)
    (group_files s) (activation_files s).
Definition set_active (a : list prompt) (s : state) : state :=
  mkState (current_preset_name s) (presets s) a (prompt_groups s)
    (group_files s) (activation_files s).
Definition set_groups (g : list (string * list Z)) (s : state) : state :=
  mkState (current_preset_name s) (presets s) (active_prompts s) g
    (group_files s) (activation_files s).
Definition set_activation_files (f : list (string * list prompt)) (s : state)
  : state :=
  mkState (current_preset_name s) (presets s) (active_prompts s)
    (prompt_groups s) (group_files s) f.

(** ** The effect monad *)

(** The Python exceptions the modelled code can raise. *)
Inductive exn := IndexError.

Inductive outcome (A : Type) := Ret (a : A) | Raise (e : exn).
Arguments Ret {A} a.
Arguments Raise {A} e.

(** One call [activate_prompts(all_prompts, indices)]. *)
Definition act_call : Type := (list prompt * list Z)%type.

Definition M (A : Type) : Type := state -> outcome A * state * list act_call.

Definition ret {A} (a : A) : M A := fun s => (Ret a, s, []).

Definition bind {A B} (m : M A) (f : A -> M B) : M B := fun s =>
  match m s with
  | (Ret a, s1, t1) => let '(r, s2, t2) := f a s1 in (r, s2, t1 ++ t2)
  | (Raise e, s1, t1) => (Raise e, s1, t1)
  end.

Notation "x <- m ;; k" := (bind m (fun x => k))
  (at level 61, m at next level, right associativity).
Notation "m ;;; k" := (bind m (fun _ => k))
  (at level 61, right associativity).

Definition gets {A} (f : state -> A) : M A := fun s => (Ret (f s), s, []).
Definition modify (f : state -> state) : M unit := fun s => (Ret tt, f s, []).
Definition raise {A} (e : exn) : M A := fun s => (Raise e, s, []).
Definition record_call (c : act_call) : M unit := fun s => (Ret tt, s, [c]).

(** [try: m except Exception: h]: the state reached by [m] when it raised is
    kept. *)
Definition try_except {A} (m : M A) (h : exn -> M A) : M A := fun s =>
  match m s with
  | (Raise e, s1, t1) => let '(r, s2, t2) := h e s1 in (r, s2, t1 ++ t2)
  | r => r
  end.

Definition fmap {A B} (f : A -> B) (m : M A) : M B := x <- m ;; ret (f x).

(** Python's [l[i]] on a list, negative indices counting from the end. *)
Definition py_getitem {A} (l : list A) (i : Z) : M A :=
  let n := Z.of_nat (List.length l) in
  let j := if i <? 0 then i + n else i in
  if (0 <=? j) && (j <? n) then
    match nth_error l (Z.to_nat j) with
    | Some x => ret x
    | None => raise IndexError
    end
  else raise IndexError.

(** [0 <= idx < len(l)], the range test of the controller. *)
Definition in_range {A} (l : list A) (idx : Z) : bool :=
  (0 <=? idx) && (idx <? Z.of_nat (List.length l)).

(** ** PresetsManager and GroupsManager accessors *)

(** Modelled from the spec: [PresetsManager.get_preset_list] (not in the
    sources), the ordered preset names of the store. *)
Definition get_preset_list (s : state) : list string := map fst (presets s).

(** Modelled from the spec: [PresetsManager.get_prompts] (not in the
    sources), the prompt list of a preset, empty if unknown. *)
Definition get_prompts (n : string) (s : state) : list prompt :=
  match lookup n (presets s) with Some p => prompts p | None => [] end.

(** Modelled from the spec: [PresetsManager.get_prefix] (not in the
    sources), the prefix of a preset, empty if unknown. *)
Definition get_prefix (n : string) (s : state) : string :=
  match lookup n (presets s) with Some p => prefix p | None => "" end.

(** Modelled from the spec: [GroupsManager.get_prompt_group] (not in the
    sources); [None] when the group does not exist. *)
Definition get_prompt_group (n : string) (s : state) : option (list Z) :=
  lookup n (prompt_groups s).

(** ** Controller accessors *)

Definition get_current_preset_name (s : state) : string :=
  current_preset_name s.

Definition get_current_prompts (s : state) : list prompt :=
  if String.eqb (current_preset_name s) "" then []
  else get_prompts (current_preset_name s) s.

Definition get_current_prefix (s : state) : string :=
  if String.eqb (current_preset_name s) "" then ""
  else get_prefix (current_preset_name s) s.

Definition get_active_prompts (s : state) : list prompt := active_prompts s.

Definition get_prompt_groups (s : state) : list (string * list Z) :=
  prompt_groups s.

(** ** Controller.process_llm_request *)

(** The separator ["\n\n"]. *)
Definition sep : string := String "010"%char (String "010"%char EmptyString).

(** Python's [sep.join(parts)]. *)
Definition join (sp : string) (parts : list string) : string :=
  match parts with
  | [] => ""
  | p :: ps => fold_left (fun acc x => String.append acc (String.append sp x)) ps p
  end.

(** The loop collecting the contents: [content = prompt.get('content', '');
    if content: parts_to_prepend.append(content)]. *)
Fixpoint collect_contents (active : list prompt) : list string :=
  match active with
  | [] => []
  | p :: ps =>
      if String.eqb (content p) "" then collect_contents ps
      else content p :: collect_contents ps
  end.

Definition process_llm_request (self : state) (system_prompt user_prompt : string)
  : string * string :=
  let active := get_active_prompts self in
  let current_prefix := get_current_prefix self in
  let modified_system := system_prompt in
  let modified_user := user_prompt in
  let parts_to_prepend :=
    (if String.eqb current_prefix "" then [] else [current_prefix])
    ++ collect_contents active in
  match parts_to_prepend with
  | [] => (modified_system, modified_user)
  | _ =>
      let prepend_str := join sep parts_to_prepend in
      if String.eqb modified_system "" then (prepend_str, modified_user)
      else (String.append prepend_str (String.append sep modified_system),
            modified_user)
  end.

(** ** Messages

    One constructor per message the controller returns; the Python code
    builds them as Chinese f-strings, only their distinctness matters. *)
Inductive msg :=
  (* switch_preset *)
  | MsgNoPresets | MsgSwitched (n : string) | MsgInvalidPresetIndex (i : Z)
  | MsgSwitchInternalError
  (* create_preset *)
  | MsgEmptyPresetName | MsgPresetCreated (n : string)
  | MsgPresetCreateFailed (n : string) | MsgCreatePresetInternalError (n : string)
  (* refresh_prompts *)
  | MsgReloaded (presets_n prompts_n : nat) | MsgNoPresetsFound
  | MsgExtractFailed | MsgRefreshInternalError
  (* activation *)
  | MsgNoPromptsInPreset | MsgAlreadyActive (n : string)
  | MsgActivated (n : string) | MsgActivateLogicError
  | MsgInvalidPromptIndex (i : Z) | MsgActivateInternalError
  | MsgEmptyIndexList | MsgInvalidPromptIndices (l : list Z) (max : Z)
  | MsgActivatedMany (k : nat) | MsgAllAlreadyActive
  | MsgActivateManyInternalError
  | MsgEmptyGroupName | MsgGroupNotFound (g : string) | MsgGroupEmpty (g : string)
  | MsgGroupActivated (g : string) (k : nat) | MsgGroupAllActive (g : string)
  | MsgGroupActivateInternalError (g : string)
  (* deactivation *)
  | MsgNoActivePrompts | MsgDeactivated (n : string) | MsgDeactivateLogicError
  | MsgInvalidActiveIndex (i : Z) | MsgDeactivateInternalError
  | MsgInvalidActiveIndices (l : list Z) (max : Z)
  | MsgDeactivatedMany (k : nat) | MsgNothingDeactivated
  | MsgDeactivateManyInternalError
  | MsgNoPresetSelected | MsgGroupEmptyNothingToDo (g : string)
  | MsgGroupIndicesInvalid (g : string) | MsgGroupDeactivated (g : string) (k : nat)
  | MsgGroupNoneActive (g : string) | MsgGroupDeactivateInternalError (g : string)
  (* clear_active_prompts *)
  | MsgNothingToClear | MsgCleared (k : Z) | MsgClearInternalError.

(** ** PromptsManager (the activation tracker) *)

Module PromptsManager.

(** Modelled from the spec: [PromptsManager.clear_active_prompts] (not in
    the sources); empties the active list and returns how many entries it
    held. *)
Definition clear_active_prompts : M Z :=
  act <- gets active_prompts ;;
  modify (set_active []) ;;;
  ret (Z.of_nat (List.length act)).

(** The loop of [activate_prompts]: the prompt [all_prompts[idx]] of each
    index is appended when no equal value is active yet. *)
Fixpoint activate_loop (all_prompts : list prompt) (indices : list Z)
    (newly_active : list prompt) : M (list prompt) :=
  match indices with
  | [] => ret newly_active
  | idx :: rest =>
      p <- py_getitem all_prompts idx ;;
      act <- gets active_prompts ;;
      if prompt_in p act then activate_loop all_prompts rest newly_active
      else modify (set_active (act ++ [p])) ;;;
           activate_loop all_prompts rest (newly_active ++ [p])
  end.

(** Modelled from the spec: [PromptsManager.activate_prompts(all_prompts,
    indices)] (not in the sources).  For each index, in input order, the
    prompt [all_prompts[idx]] (Python indexing) is appended to the active
    list unless a prompt equal to it is already active; the appended
    prompts are returned.  The call is recorded in the trace. *)
Definition activate_prompts (all_prompts : list prompt) (indices : list Z)
  : M (list prompt) :=
  record_call (all_prompts, indices) ;;;
  activate_loop all_prompts indices [].

(** [del l[n]]. *)
Definition remove_at {A} (n : nat) (l : list A) : list A :=
  firstn n l ++ skipn (S n) l.

(** Modelled from the spec: [PromptsManager.deactivate_prompt(index)] (not
    in the sources); removes and returns the active entry at that position
    of the active list, [None] when there is none. *)
Definition deactivate_prompt (index : Z) : M (option prompt) :=
  act <- gets active_prompts ;;
  if in_range act index then
    match nth_error act (Z.to_nat index) with
    | Some p => modify (set_active (remove_at (Z.to_nat index) act)) ;;; ret (Some p)
    | None => ret None
    end
  else ret None.

(** Modelled from the spec: [PromptsManager.deactivate_prompts_by_reference]
    (not in the sources), the tracker's [deactivate_by_value]: removes the
    active entries equal to one of the given values and returns them, in
    active-list order. *)
Definition deactivate_prompts_by_reference (targets : list prompt)
  : M (list prompt) :=
  act <- gets active_prompts ;;
  modify (set_active (filter (fun p => negb (prompt_in p targets)) act)) ;;;
  ret (filter (fun p => prompt_in p targets) act).

(** Modelled from the spec: [PromptsManager.save_activation_state] (not in
    the sources); snapshots the active list as the preset's markers. *)
Definition save_activation_state (preset_name : string)
    (all_prompts : list prompt) : M unit :=
  act <- gets active_prompts ;;
  modify (fun s => set_activation_files
                     (assoc_set preset_name act (activation_files s)) s).

(** Modelled from the spec: [PromptsManager.load_activation_state] (not in
    the sources); the preset's markers that match a prompt of
    [all_prompts] by value become the active list, the others are
    dropped. *)
Definition load_activation_state (preset_name : string)
    (all_prompts : list prompt) : M unit :=
  files <- gets activation_files ;;
  let markers := match lookup preset_name files with Some l => l | None => [] end in
  modify (set_active (filter (fun m => prompt_in m all_prompts) markers)).

End PromptsManager.

(** ** GroupsManager and PresetsManager *)

Module GroupsManager.

(** Modelled from the spec: [GroupsManager.load_prompt_groups] (not in the
    sources); the groups persisted for the preset become the loaded ones. *)
Definition load_prompt_groups (preset_name : string) : M unit :=
  modify (fun s => set_groups
                     (match lookup preset_name (group_files s) with
                      | Some g => g | None => [] end) s).

End GroupsManager.

Module PresetsManager.

(** Modelled from the spec: [PresetsManager.create_preset] (not in the
    sources); fails on an empty or existing name, otherwise adds an empty
    preset. *)
Definition create_preset (n : string) : M bool :=
  ps <- gets presets ;;
  if String.eqb n "" then ret false
  else match lookup n ps with
       | Some _ => ret false
       | None => modify (set_presets (ps ++ [(n, mkPreset [] "")])) ;;; ret true
       end.

(** Modelled from the spec: the number of prompts of a store value, the
    [len(prompts)] of [refresh_prompts]' count. *)
Definition preset_len (p : preset) : nat := List.length (prompts p).

End PresetsManager.

(** ** Controller *)

Module Controller.

(** [switch_preset(index)]. *)
Definition switch_preset (index : Z) : M (bool * msg) :=
  try_except (
    presets <- gets get_preset_list ;;
    match presets with
    | [] => ret (false, MsgNoPresets)
    | _ =>
        if in_range presets index then
          PromptsManager.clear_active_prompts ;;;
          modify (set_current (nth (Z.to_nat index) presets "")) ;;;
          cur <- gets current_preset_name ;;
          GroupsManager.load_prompt_groups cur ;;;
          current_prompts <- gets get_current_prompts ;;
          PromptsManager.load_activation_state cur current_prompts ;;;
          ret (true, MsgSwitched cur)
        else ret (false, MsgInvalidPresetIndex index)
    end)
  (fun _ => ret (false, MsgSwitchInternalError)).

(** [create_preset(name)]. *)
Definition create_preset (n : string) : M (bool * msg) :=
  try_except (
    if String.eqb n "" then ret (false, MsgEmptyPresetName)
    else
      ok <- PresetsManager.create_preset n ;;
      if ok then
        (modify (set_current n) ;;;
         PromptsManager.clear_active_prompts ;;;
         modify (set_groups []) ;;;
         ret (true, MsgPresetCreated n))
      else ret (false, MsgPresetCreateFailed n))
  (fun _ => ret (false, MsgCreatePresetInternalError n)).

(** The two statistics of [refresh_prompts]: [len(presets)] and
    [sum(len(prompts) for prompts in presets.values())]. *)
Definition refresh_stats (ps : list (string * preset)) : stats :=
  mkStats (List.length ps)
    (list_sum (map (fun kv => PresetsManager.preset_len (snd kv)) ps)).

(** [refresh_prompts()].  Modelled from the spec: the extraction
    collaborator ([PresetsManager.extract_prompts] followed by
    [load_presets], not in the sources) is the argument [extracted]:
    [None] when extraction fails, [Some store] with the reloaded store
    otherwise. *)
Definition refresh_prompts (extracted : option (list (string * preset)))
  : M (bool * msg * option stats) :=
  try_except (
    match extracted with
    | Some store =>
        modify (set_presets store) ;;;
        PromptsManager.clear_active_prompts ;;;
        preset_list <- gets get_preset_list ;;
        (match preset_list with
         | first :: _ =>
             modify (set_current first) ;;;
             GroupsManager.load_prompt_groups first
         | [] => modify (set_current "")
         end) ;;;
        ps <- gets presets ;;
        let st := refresh_stats ps in
        if (0 <? preset_count st)%nat
        then ret (true, MsgReloaded (preset_count st) (prompt_count st), Some st)
        else ret (true, MsgNoPresetsFound, Some st)
    | None => ret (false, MsgExtractFailed, None)
    end)
  (fun _ => ret (false, MsgRefreshInternalError, None)).

(** [activate_prompt(index)]. *)
Definition activate_prompt (index : Z) : M (bool * msg * option prompt) :=
  try_except (
    all_prompts <- gets get_current_prompts ;;
    match all_prompts with
    | [] => ret (false, MsgNoPromptsInPreset, None)
    | _ =>
        if in_range all_prompts index then
          p <- py_getitem all_prompts index ;;
          act <- gets active_prompts ;;
          if prompt_in p act then ret (true, MsgAlreadyActive (name p), Some p)
          else
            newly_active <- PromptsManager.activate_prompts all_prompts [index] ;;
            match newly_active with
            | _ :: _ =>
                cur <- gets current_preset_name ;;
                PromptsManager.save_activation_state cur all_prompts ;;;
                ret (true, MsgActivated (name p), Some p)
            | [] => ret (false, MsgActivateLogicError, None)
            end
        else ret (false, MsgInvalidPromptIndex index, None)
    end)
  (fun _ => ret (false, MsgActivateInternalError, None)).

(** [activate_multiple_prompts(indices)]. *)
Definition activate_multiple_prompts (indices : list Z)
  : M (bool * msg * list prompt) :=
  try_except (
    match indices with
    | [] => ret (false, MsgEmptyIndexList, [])
    | _ =>
        all_prompts <- gets get_current_prompts ;;
        match all_prompts with
        | [] => ret (false, MsgNoPromptsInPreset, [])
        | _ =>
            let max_index := Z.of_nat (List.length all_prompts) - 1 in
            let invalid_indices :=
              filter (fun idx => negb ((0 <=? idx) && (idx <=? max_index))) indices in
            match invalid_indices with
            | _ :: _ => ret (false, MsgInvalidPromptIndices invalid_indices max_index, [])
            | [] =>
                newly_active <- PromptsManager.activate_prompts all_prompts indices ;;
                match newly_active with
                | _ :: _ =>
                    cur <- gets current_preset_name ;;
                    PromptsManager.save_activation_state cur all_prompts ;;;
                    ret (true, MsgActivatedMany (List.length newly_active), newly_active)
                | [] => ret (true, MsgAllAlreadyActive, [])
                end
            end
        end
    end)
  (fun _ => ret (false, MsgActivateManyInternalError, [])).

(** [activate_prompt_group(group_name)]. *)
Definition activate_prompt_group (group_name : string)
  : M (bool * msg * list prompt) :=
  try_except (
    all_prompts <- gets get_current_prompts ;;
    match all_prompts with
    | [] => ret (false, MsgNoPromptsInPreset, [])
    | _ =>
        if String.eqb group_name "" then ret (false, MsgEmptyGroupName, [])
        else
          indices <- gets (get_prompt_group group_name) ;;
          match indices with
          | None => ret (false, MsgGroupNotFound group_name, [])
          | Some [] => ret (false, MsgGroupEmpty group_name, [])
          | Some ixs =>
              newly_active <- PromptsManager.activate_prompts all_prompts ixs ;;
              match newly_active with
              | _ :: _ =>
                  ret (true, MsgGroupActivated group_name (List.length newly_active),
                       newly_active)
              | [] => ret (true, MsgGroupAllActive group_name, [])
              end
          end
    end)
  (fun _ => ret (false, MsgGroupActivateInternalError group_name, [])).

(** [deactivate_prompt(index)], [index] in the active list. *)
Definition deactivate_prompt (index : Z) : M (bool * msg * option prompt) :=
  try_except (
    act <- gets active_prompts ;;
    match act with
    | [] => ret (false, MsgNoActivePrompts, None)
    | _ =>
        if in_range act index then
          removed_prompt <- PromptsManager.deactivate_prompt index ;;
          match removed_prompt with
          | Some p =>
              all_prompts <- gets get_current_prompts ;;
              cur <- gets current_preset_name ;;
              PromptsManager.save_activation_state cur all_prompts ;;;
              ret (true, MsgDeactivated (name p), Some p)
          | None => ret (false, MsgDeactivateLogicError, None)
          end
        else ret (false, MsgInvalidActiveIndex index, None)
    end)
  (fun _ => ret (false, MsgDeactivateInternalError, None)).

(** [valid_indices.sort(reverse=True)]. *)
Fixpoint insert_desc (x : Z) (l : list Z) : list Z :=
  match l with
  | [] => [x]
  | y :: r => if y <? x then x :: l else y :: insert_desc x r
  end.

Fixpoint sort_desc (l : list Z) : list Z :=
  match l with
  | [] => []
  | x :: r => insert_desc x (sort_desc r)
  end.

(** The removal loop of [deactivate_multiple_prompts]. *)
Fixpoint deactivate_loop (valid_indices : list Z) (deactivated : list prompt)
  : M (list prompt) :=
  match valid_indices with
  | [] => ret deactivated
  | idx :: rest =>
      removed_prompt <- PromptsManager.deactivate_prompt idx ;;
      match removed_prompt with
      | Some p => deactivate_loop rest (deactivated ++ [p])
      | None => deactivate_loop rest deactivated
      end
  end.

(** [deactivate_multiple_prompts(indices)], indices in the active list. *)
Definition deactivate_multiple_prompts (indices : list Z)
  : M (bool * msg * list prompt) :=
  try_except (
    match indices with
    | [] => ret (false, MsgEmptyIndexList, [])
    | _ =>
        active <- gets active_prompts ;;
        match active with
        | [] => ret (false, MsgNoActivePrompts, [])
        | _ =>
            let max_index := Z.of_nat (List.length active) - 1 in
            let valid_indices :=
              filter (fun idx => (0 <=? idx) && (idx <=? max_index)) indices in
            let invalid_indices :=
              filter (fun idx => negb ((0 <=? idx) && (idx <=? max_index))) indices in
            match invalid_indices, valid_indices with
            | _ :: _, [] =>
                ret (false, MsgInvalidActiveIndices invalid_indices max_index, [])
            | _, _ =>
                deactivated_prompts <- deactivate_loop (sort_desc valid_indices) [] ;;
                match deactivated_prompts with
                | _ :: _ =>
                    ret (true, MsgDeactivatedMany (List.length deactivated_prompts),
                         deactivated_prompts)
                | [] => ret (false, MsgNothingDeactivated, [])
                end
            end
        end
    end)
  (fun _ => ret (false, MsgDeactivateManyInternalError, [])).

(** The resolution loop of [deactivate_prompt_group]: the prompts of the
    in-range indices, and the out-of-range indices. *)
Fixpoint resolve_group_indices (all_prompts : list prompt) (max_index : Z)
    (indices : list Z) : list prompt * list Z :=
  match indices with
  | [] => ([], [])
  | idx :: rest =>
      let '(ps, invalid) := resolve_group_indices all_prompts max_index rest in
      if (0 <=? idx) && (idx <=? max_index) then
        match nth_error all_prompts (Z.to_nat idx) with
        | Some p => (p :: ps, invalid)
        | None => (ps, idx :: invalid)
        end
      else (ps, idx :: invalid)
  end.

(** [deactivate_prompt_group(group_name)]. *)
Definition deactivate_prompt_group (group_name : string)
  : M (bool * msg * list prompt) :=
  try_except (
    cur <- gets current_preset_name ;;
    if String.eqb cur "" then ret (false, MsgNoPresetSelected, [])
    else if String.eqb group_name "" then ret (false, MsgEmptyGroupName, [])
    else
      indices <- gets (get_prompt_group group_name) ;;
      match indices with
      | None => ret (false, MsgGroupNotFound group_name, [])
      | Some [] => ret (true, MsgGroupEmptyNothingToDo group_name, [])
      | Some ixs =>
          all_prompts <- gets get_current_prompts ;;
          match all_prompts with
          | [] => ret (false, MsgNoPromptsInPreset, [])
          | _ =>
              let max_index := Z.of_nat (List.length all_prompts) - 1 in
              let '(prompts_to_deactivate, _) :=
                resolve_group_indices all_prompts max_index ixs in
              match prompts_to_deactivate with
              | [] => ret (false, MsgGroupIndicesInvalid group_name, [])
              | _ =>
                  deactivated_prompts <-
                    PromptsManager.deactivate_prompts_by_reference prompts_to_deactivate ;;
                  match deactivated_prompts with
                  | _ :: _ =>
                      ret (true, MsgGroupDeactivated group_name
                                   (List.length deactivated_prompts),
                           deactivated_prompts)
                  | [] => ret (true, MsgGroupNoneActive group_name, [])
                  end
              end
          end
      end)
  (fun _ => ret (false, MsgGroupDeactivateInternalError group_name, [])).

(** [clear_active_prompts()]. *)
Definition clear_active_prompts : M (bool * msg * Z) :=
  try_except (
    count <- PromptsManager.clear_active_prompts ;;
    if count =? 0 then ret (true, MsgNothingToClear, 0)
    else ret (true, MsgCleared count, count))
  (fun _ => ret (false, MsgClearInternalError, -1)).

End Controller.

(** ** The editing methods of the controller

    [add_prompt], [update_prompt], [delete_prompt] and the group editing
    methods delegate the work to [PromptsManager] and [GroupsManager]
    methods that are not in the sources and that the specification does
    not describe in detail.  They are left abstract: each is a section
    variable, an arbitrary computation on the session state, so that what
    is proved below holds whatever they do (including raising). *)

(** The messages of the editing methods. *)
Inductive edit_msg :=
  | EMsgNoPresetSelected | EMsgEmptyPromptName | EMsgEmptyPromptContent
  | EMsgPromptAdded (n : string) | EMsgAddFailed | EMsgAddInternalError
  | EMsgNoPromptsInPreset | EMsgInvalidPromptIndex (i : Z)
  | EMsgPromptUpdated (n : string) | EMsgUpdateFailed | EMsgUpdateInternalError
  | EMsgPromptDeleted (n : string) | EMsgDeleteFailed | EMsgDeleteInternalError
  | EMsgEmptyGroupName | EMsgGroupCreated (n : string)
  | EMsgGroupCreateFailed (n : string) | EMsgGroupCreateInternalError (n : string)
  | EMsgGroupNotFound (n : string) | EMsgGroupUpdated (n : string)
  | EMsgGroupUpdateFailed (n : string) | EMsgGroupUpdateInternalError (n : string)
  | EMsgGroupDeleted (n : string) | EMsgGroupDeleteFailed (n : string)
  | EMsgGroupDeleteInternalError (n : string).

Module ControllerEditing.

Section Editing.

(** [PromptsManager.add_prompt_to_preset(name, content, preset_name,
    presets)]; the returned dict, [None] when nothing was added (a prompt
    dict always has keys, so it is truthy). *)
Variable add_prompt_to_preset :
  string -> string -> string -> list (string * preset) -> M (option prompt).
(** [PromptsManager.update_prompt(index, name, content, preset_name,
    all_prompts)]. *)
Variable pm_update_prompt :
  Z -> string -> string -> string -> list prompt -> M (option prompt).
(** [PromptsManager.delete_prompt(index, preset_name, all_prompts)]. *)
Variable pm_delete_prompt : Z -> string -> list prompt -> M (option prompt).
(** [GroupsManager.create_prompt_group(name, indices, preset_name,
    all_prompts)]. *)
Variable gm_create_prompt_group : string -> list Z -> string -> list prompt -> M bool.
(** [GroupsManager.update_prompt_group(name, indices, preset_name,
    all_prompts)]. *)
Variable gm_update_prompt_group : string -> list Z -> string -> list prompt -> M bool.
(** [GroupsManager.delete_prompt_group(name, preset_name)]. *)
Variable gm_delete_prompt_group : string -> string -> M bool.

(** [add_prompt(name, content)]. *)
Definition add_prompt (n c : string) : M (bool * edit_msg * option prompt) :=
  try_except (
    cur <- gets current_preset_name ;;
    if String.eqb cur "" then ret (false, EMsgNoPresetSelected, None)
    else if String.eqb n "" then ret (false, EMsgEmptyPromptName, None)
    else if String.eqb c "" then ret (false, EMsgEmptyPromptContent, None)
    else
      ps <- gets presets ;;
      prompt <- add_prompt_to_preset n c cur ps ;;
      match prompt with
      | Some p => ret (true, EMsgPromptAdded n, Some p)
      | None => ret (false, EMsgAddFailed, None)
      end)
  (fun _ => ret (false, EMsgAddInternalError, None)).

(** [update_prompt(index, name, content)]; [all_prompts[index]] is read
    for the log message only. *)
Definition update_prompt (index : Z) (n c : string)
  : M (bool * edit_msg * option prompt) :=
  try_except (
    cur <- gets current_preset_name ;;
    if String.eqb cur "" then ret (false, EMsgNoPresetSelected, None)
    else if String.eqb n "" then ret (false, EMsgEmptyPromptName, None)
    else if String.eqb c "" then ret (false, EMsgEmptyPromptContent, None)
    else
      all_prompts <- gets get_current_prompts ;;
      match all_prompts with
      | [] => ret (false, EMsgNoPromptsInPreset, None)
      | _ =>
          if in_range all_prompts index then
            _original_prompt <- py_getitem all_prompts index ;;
            updated_prompt <- pm_update_prompt index n c cur all_prompts ;;
            match updated_prompt with
            | Some p => ret (true, EMsgPromptUpdated n, Some p)
            | None => ret (false, EMsgUpdateFailed, None)
            end
          else ret (false, EMsgInvalidPromptIndex index, None)
      end)
  (fun _ => ret (false, EMsgUpdateInternalError, None)).

(** [delete_prompt(index)]. *)
Definition delete_prompt (index : Z) : M (bool * edit_msg * option prompt) :=
  try_except (
    cur <- gets current_preset_name ;;
    if String.eqb cur "" then ret (false, EMsgNoPresetSelected, None)
    else
      all_prompts <- gets get_current_prompts ;;
      match all_prompts with
      | [] => ret (false, EMsgNoPromptsInPreset, None)
      | _ =>
          if in_range all_prompts index then
            deleted_prompt <- pm_delete_prompt index cur all_prompts ;;
            match deleted_prompt with
            | Some p => ret (true, EMsgPromptDeleted (name p), Some p)
            | None => ret (false, EMsgDeleteFailed, None)
            end
          else ret (false, EMsgInvalidPromptIndex index, None)
      end)
  (fun _ => ret (false, EMsgDeleteInternalError, None)).

(** [create_prompt_group(name, indices)]. *)
Definition create_prompt_group (n : string) (indices : list Z) : M (bool * edit_msg) :=
  try_except (
    cur <- gets current_preset_name ;;
    if String.eqb cur "" then ret (false, EMsgNoPresetSelected)
    else if String.eqb n "" then ret (false, EMsgEmptyGroupName)
    else
      all_prompts <- gets get_current_prompts ;;
      ok <- gm_create_prompt_group n indices cur all_prompts ;;
      if ok then ret (true, EMsgGroupCreated n) else ret (false, EMsgGroupCreateFailed n))
  (fun _ => ret (false, EMsgGroupCreateInternalError n)).

(** [update_prompt_group(name, indices)]; [name not in prompt_groups] is
    a lookup in the loaded groups. *)
Definition update_prompt_group (n : string) (indices : list Z) : M (bool * edit_msg) :=
  try_except (
    cur <- gets current_preset_name ;;
    if String.eqb cur "" then ret (false, EMsgNoPresetSelected)
    else
      groups <- gets prompt_groups ;;
      match lookup n groups with
      | None => ret (false, EMsgGroupNotFound n)
      | Some _ =>
          all_prompts <- gets get_current_prompts ;;
          ok <- gm_update_prompt_group n indices cur all_prompts ;;
          if ok then ret (true, EMsgGroupUpdated n) else ret (false, EMsgGroupUpdateFailed n)
      end)
  (fun _ => ret (false, EMsgGroupUpdateInternalError n)).

(** [delete_prompt_group(name)]. *)
Definition delete_prompt_group (n : string) : M (bool * edit_msg) :=
  try_except (
    cur <- gets current_preset_name ;;
    if String.eqb cur "" then ret (false, EMsgNoPresetSelected)
    else
      groups <- gets prompt_groups ;;
      match lookup n groups with
      | None => ret (false, EMsgGroupNotFound n)
      | Some _ =>
          ok <- gm_delete_prompt_group n cur ;;
          if ok then ret (true, EMsgGroupDeleted n) else ret (false, EMsgGroupDeleteFailed n)
      end)
  (fun _ => ret (false, EMsgGroupDeleteInternalError n)).

End Editing.

End ControllerEditing.

(** ** The public surface of the controller

    The values a public method hands back to its Python caller: a result
    tuple whose first two components are a success flag and a message, or
    a bare value. *)
Inductive pyval :=
  | VNone
  | VInt (z : Z)
  | VStr (s : string)
  | VStrs (l : list string)
  | VPrompt (p : prompt)
  | VPrompts (l : list prompt)
  | VStats (st : option stats)
  | VIndices (l : option (list Z))
  | VGroups (g : list (string * list Z))
  | VStrPair (a b : string).

Inductive py_return :=
  | RTuple (success : bool) (m : msg) (payload : pyval)
  | RBare (v : pyval).

(** The modelled public methods of [Controller]. *)
Inductive op :=
  | OpGetPresetList
  | OpGetCurrentPresetName
  | OpSwitchPreset (index : Z)
  | OpCreatePreset (n : string)
  | OpRefreshPrompts (extracted : option (list (string * preset)))
  | OpGetCurrentPrompts
  | OpGetCurrentPrefix
  | OpGetActivePrompts
  | OpActivatePrompt (index : Z)
  | OpActivateMultiplePrompts (indices : list Z)
  | OpActivatePromptGroup (group_name : string)
  | OpDeactivatePrompt (index : Z)
  | OpDeactivateMultiplePrompts (indices : list Z)
  | OpDeactivatePromptGroup (group_name : string)
  | OpClearActivePrompts
  | OpGetPromptGroups
  | OpGetPromptGroup (n : string)
  | OpProcessLlmRequest (system_prompt user_prompt : string).

Definition opt_prompt (o : option prompt) : pyval :=
  match o with Some p => VPrompt p | None => VNone end.

(** What each public method returns, as its Python code builds it. *)
Definition run_op (o : op) : M py_return :=
  match o with
  | OpGetPresetList => gets (fun s => RBare (VStrs (get_preset_list s)))
  | OpGetCurrentPresetName => gets (fun s => RBare (VStr (get_current_preset_name s)))
  | OpSwitchPreset i =>
      fmap (fun '(b, m) => RTuple b m VNone) (Controller.switch_preset i)
  | OpCreatePreset n =>
      fmap (fun '(b, m) => RTuple b m VNone) (Controller.create_preset n)
  | OpRefreshPrompts ex =>
      fmap (fun '(b, m, st) => RTuple b m (VStats st)) (Controller.refresh_prompts ex)
  | OpGetCurrentPrompts => gets (fun s => RBare (VPrompts (get_current_prompts s)))
  | OpGetCurrentPrefix => gets (fun s => RBare (VStr (get_current_prefix s)))
  | OpGetActivePrompts => gets (fun s => RBare (VPrompts (get_active_prompts s)))
  | OpActivatePrompt i =>
      fmap (fun '(b, m, p) => RTuple b m (opt_prompt p)) (Controller.activate_prompt i)
  | OpActivateMultiplePrompts l =>
      fmap (fun '(b, m, ps) => RTuple b m (VPrompts ps))
        (Controller.activate_multiple_prompts l)
  | OpActivatePromptGroup g =>
      fmap (fun '(b, m, ps) => RTuple b m (VPrompts ps))
        (Controller.activate_prompt_group g)
  | OpDeactivatePrompt i =>
      fmap (fun '(b, m, p) => RTuple b m (opt_prompt p)) (Controller.deactivate_prompt i)
  | OpDeactivateMultiplePrompts l =>
      fmap (fun '(b, m, ps) => RTuple b m (VPrompts ps))
        (Controller.deactivate_multiple_prompts l)
  | OpDeactivatePromptGroup g =>
      fmap (fun '(b, m, ps) => RTuple b m (VPrompts ps))
        (Controller.deactivate_prompt_group g)
  | OpClearActivePrompts =>
      fmap (fun '(b, m, k) => RTuple b m (VInt k)) Controller.clear_active_prompts
  | OpGetPromptGroups => gets (fun s => RBare (VGroups (get_prompt_groups s)))
  | OpGetPromptGroup n => gets (fun s => RBare (VIndices (get_prompt_group n s)))
  | OpProcessLlmRequest sp up =>
      gets (fun s => let r := process_llm_request s sp up in
                     RBare (VStrPair (fst r) (snd r)))
  end.


(** The three components of a run. *)
Definition result_of {A} (r : outcome A * state * list act_call) : outcome A :=
  fst (fst r).
Definition state_of {A} (r : outcome A * state * list act_call) : state :=
  snd (fst r).
Definition trace_of {A} (r : outcome A * state * list act_call) : list act_call :=
  snd r.

(** ** The system text as the specification words it *)

(** Spec wording of [process_llm_request]: the prefix if non-empty, then
    each active prompt's content, then the original system text, joined by
    blank lines; the original text alone when there is nothing to
    prepend. *)
Definition spec_segments (s : state) : list string :=
  (if String.eqb (get_current_prefix s) "" then [] else [get_current_prefix s])
  ++ map content (active_prompts s).

Definition spec_system_text (s : state) (system_text : string) : string :=
  match spec_segments s with
  | [] => system_text
  | segs => join sep (segs ++ (if String.eqb system_text "" then [] else [system_text]))
  end.

(** The same, keeping only the non-empty contents. *)
Definition nonempty_segments (s : state) : list string :=
  (if String.eqb (get_current_prefix s) "" then [] else [get_current_prefix s])
  ++ filter (fun c => negb (String.eqb c "")) (map content (active_prompts s)).

Definition nonempty_system_text (s : state) (system_text : string) : string :=
  match nonempty_segments s with
  | [] => system_text
  | segs => join sep (segs ++ (if String.eqb system_text "" then [] else [system_text]))
  end.

(** The active prompts whose content is not empty. *)
Definition nonempty_active (l : list prompt) : list prompt :=
  filter (fun p => negb (String.eqb (content p) "")) l.

(** ** Concrete sessions *)

Definition prompt_A : prompt := mkPrompt "A" "A.content" Extracted.
Definition prompt_B : prompt := mkPrompt "B" "B.content" Extracted.
Definition prompt_C : prompt := mkPrompt "C" "C.content" UserCreated.
Definition prompt_D : prompt := mkPrompt "D" "D.content" UserCreated.
Definition prompt_empty : prompt := mkPrompt "E" "" UserCreated.

(** Preset [P] with prompts [A,B,C] and prefix ["SYS"], nothing active. *)
Definition session_P : state :=
  mkState "P" [("P", mkPreset [prompt_A; prompt_B; prompt_C] "SYS")] []
    [] [] [].

(** ** Lemmas on the pure helpers *)

Lemma collect_contents_filter (l : list prompt) :
  collect_contents l = filter (fun c => negb (String.eqb c "")) (map content l).
Proof.
  induction l as [|p l IH]; simpl; [reflexivity|].
  destruct (String.eqb (content p) ""); simpl; rewrite IH; reflexivity.
Qed.

Lemma join_snoc (sp x : string) (l : list string) :
  l <> [] -> join sp (l ++ [x]) = String.append (join sp l) (String.append sp x).
Proof.
  destruct l as [|y l]; [congruence|intros _].
  simpl. rewrite fold_left_app. reflexivity.
Qed.

Lemma collect_contents_nonempty_active (l : list prompt) :
  collect_contents (nonempty_active l) = collect_contents l.
Proof.
  induction l as [|p l IH]; simpl; [reflexivity|].
  destruct (String.eqb (content p) "") eqn:E; simpl; rewrite ?E; simpl;
    rewrite IH; reflexivity.
Qed.

Lemma collect_contents_all_empty (l : list prompt) :
  Forall (fun p => content p = "") l -> collect_contents l = [].
Proof.
  induction 1 as [|p l Hp _ IH]; simpl; [reflexivity|].
  rewrite Hp. simpl. exact IH.
Qed.

Lemma get_current_prefix_set_active (a : list prompt) (s : state) :
  get_current_prefix (set_active a s) = get_current_prefix s.
Proof. reflexivity. Qed.

(** ** C1: the system text built by [process_llm_request] *)

(** C1 (counterexample to the claim as worded): an active prompt with an
    empty content contributes no segment, so the result differs from
    joining "each active prompt's content". *)
Lemma process_llm_request_skips_empty_content :
  process_llm_request (set_active [prompt_A; prompt_empty] session_P) "orig" "u"
  <> (spec_system_text (set_active [prompt_A; prompt_empty] session_P) "orig", "u").
Proof. vm_compute. discriminate. Qed.

(** C1 (amended): for every session, system text and user text,
    [process_llm_request] returns the user text unchanged and the system
    text obtained by joining with blank lines the prefix (if non-empty),
    the non-empty contents of the active prompts in ActiveSet order and
    the original system text (if non-empty); with nothing to prepend the
    system text is returned unchanged.  On preset [P] with prompts
    [A,B,C] and prefix "SYS", activating [0,2] gives ActiveSet [A,C] and
    the request ("orig","u") becomes
    ("SYS\n\nA.content\n\nC.content\n\norig", "u"). *)
Theorem process_llm_request_prepend :
  (forall (s : state) (system_text user_text : string),
      process_llm_request s system_text user_text
      = (nonempty_system_text s system_text, user_text))
  /\ (let s1 := state_of (Controller.activate_multiple_prompts [0; 2] session_P) in
      active_prompts s1 = [prompt_A; prompt_C]
      /\ process_llm_request s1 "orig" "u"
         = (join sep ["SYS"; "A.content"; "C.content"; "orig"], "u")).
Proof.
  split; [|vm_compute; split; reflexivity].
  intros s sys user.
  unfold process_llm_request, nonempty_system_text, nonempty_segments,
    get_active_prompts.
  rewrite collect_contents_filter.
  destruct ((if String.eqb (get_current_prefix s) "" then []
             else [get_current_prefix s])
            ++ filter (fun c => negb (String.eqb c "")) (map content (active_prompts s)))
    as [|x l] eqn:Hparts; [reflexivity|].
  destruct (String.eqb sys "") eqn:Hsys.
  - rewrite app_nil_r. reflexivity.
  - rewrite join_snoc by discriminate. reflexivity.
Qed.

(** ** C9: empty contents are omitted *)

(** C9: only non-empty contents are segments of the prepend block:
    dropping the empty-content prompts from the ActiveSet never changes
    the result; and with an empty prefix and only empty-content active
    prompts the system text is returned unchanged. *)
Theorem process_llm_request_omits_empty :
  forall (s : state) (system_text user_text : string),
    process_llm_request (set_active (nonempty_active (active_prompts s)) s)
      system_text user_text
    = process_llm_request s system_text user_text
    /\ (get_current_prefix s = "" ->
        Forall (fun p => content p = "") (active_prompts s) ->
        process_llm_request s system_text user_text = (system_text, user_text)).
Proof.
  intros s sys user. split.
  - unfold process_llm_request, get_active_prompts.
    rewrite get_current_prefix_set_active. simpl active_prompts.
    rewrite collect_contents_nonempty_active. reflexivity.
  - intros Hpre Hall.
    unfold process_llm_request, get_active_prompts.
    rewrite Hpre, (collect_contents_all_empty _ Hall). reflexivity.
Qed.

(** Witness of C9 on a session with prefix "" and one empty-content active
    prompt. *)
Lemma process_llm_request_omits_empty_witness :
  get_current_prefix
    (mkState "Q" [("Q", mkPreset [prompt_empty] "")] [prompt_empty] [] [] []) = ""
  /\ Forall (fun p => content p = "")
       (active_prompts (mkState "Q" [("Q", mkPreset [prompt_empty] "")]
                          [prompt_empty] [] [] []))
  /\ process_llm_request
       (mkState "Q" [("Q", mkPreset [prompt_empty] "")] [prompt_empty] [] [] [])
       "orig" "u" = ("orig", "u").
Proof.
  split; [reflexivity|]. split; [repeat constructor|].
  apply (proj2 (process_llm_request_omits_empty
                  (mkState "Q" [("Q", mkPreset [prompt_empty] "")] [prompt_empty] [] [] [])
                  "orig" "u")).
  - reflexivity.
  - repeat constructor.
Defined.

(** ** Lemmas on activation *)

(** Every index of [ixs] is a valid position of [all_prompts]. *)
Definition valid_indices (all_prompts : list prompt) (ixs : list Z) : Prop :=
  Forall (fun i => 0 <= i < Z.of_nat (List.length all_prompts)) ixs.

(** The prompt of every index of [ixs] is (by value) in [act]. *)
Definition covered (all_prompts : list prompt) (ixs : list Z) (act : list prompt)
  : Prop :=
  Forall (fun i => exists p, nth_error all_prompts (Z.to_nat i) = Some p
                            /\ prompt_in p act = true) ixs.

Lemma prompt_eqb_refl (p : prompt) : prompt_eqb p p = true.
Proof.
  destruct p as [n c o]. unfold prompt_eqb. simpl.
  rewrite !String.eqb_refl. destruct o; reflexivity.
Qed.

Lemma prompt_in_app_l (p : prompt) (a b : list prompt) :
  prompt_in p a = true -> prompt_in p (a ++ b) = true.
Proof. unfold prompt_in. rewrite existsb_app. intros ->. reflexivity. Qed.

Lemma prompt_in_snoc (p : prompt) (a : list prompt) :
  prompt_in p (a ++ [p]) = true.
Proof.
  unfold prompt_in. rewrite existsb_app. simpl. rewrite prompt_eqb_refl.
  apply orb_true_r.
Qed.

Lemma set_active_twice (a b : list prompt) (s : state) :
  set_active a (set_active b s) = set_active a s.
Proof. reflexivity. Qed.

Lemma set_active_same (s : state) : set_active (active_prompts s) s = s.
Proof. destruct s; reflexivity. Qed.

Lemma py_getitem_in_range {A} (l : list A) (i : Z) :
  0 <= i < Z.of_nat (List.length l) ->
  exists x, nth_error l (Z.to_nat i) = Some x
            /\ forall s, py_getitem l i s = (Ret x, s, []).
Proof.
  intros Hi.
  destruct (nth_error l (Z.to_nat i)) as [x|] eqn:Hx.
  - exists x. split; [reflexivity|]. intros s. unfold py_getitem.
    replace (i <? 0) with false by (symmetry; apply Z.ltb_ge; lia).
    replace ((0 <=? i) && (i <? Z.of_nat (List.length l))) with true
      by (symmetry; apply andb_true_intro; split; [apply Z.leb_le|apply Z.ltb_lt]; lia).
    rewrite Hx. reflexivity.
  - apply nth_error_None in Hx. lia.
Qed.

Lemma activate_loop_covers (all_prompts : list prompt) (ixs : list Z) :
  valid_indices all_prompts ixs ->
  forall newly s, exists newly' act',
    PromptsManager.activate_loop all_prompts ixs newly s
      = (Ret newly', set_active act' s, [])
    /\ (forall p, prompt_in p (active_prompts s) = true -> prompt_in p act' = true)
    /\ covered all_prompts ixs act'.
Proof.
  induction 1 as [|i ixs Hi _ IH]; intros newly s.
  - exists newly, (active_prompts s). rewrite set_active_same.
    split; [reflexivity|]. split; [auto|constructor].
  - destruct (py_getitem_in_range _ _ Hi) as (p & Hp & Hget).
    simpl. unfold bind at 1. rewrite Hget. unfold bind, gets, modify. simpl.
    destruct (prompt_in p (active_prompts s)) eqn:Hin.
    + destruct (IH newly s) as (n' & a' & Hrun & Hmono & Hcov).
      rewrite Hrun. exists n', a'.
      split; [reflexivity|]. split; [exact Hmono|].
      constructor; [|exact Hcov]. exists p. split; [exact Hp|]. auto.
    + destruct (IH (newly ++ [p]) (set_active (active_prompts s ++ [p]) s))
        as (n' & a' & Hrun & Hmono & Hcov).
      rewrite Hrun. exists n', a'. rewrite set_active_twice.
      split; [reflexivity|]. split.
      * intros q Hq. apply Hmono. simpl. apply prompt_in_app_l. exact Hq.
      * constructor; [|exact Hcov]. exists p. split; [exact Hp|].
        apply Hmono. apply prompt_in_snoc.
Qed.

Lemma activate_loop_noop (all_prompts : list prompt) (ixs : list Z) :
  valid_indices all_prompts ixs ->
  forall newly s, covered all_prompts ixs (active_prompts s) ->
    PromptsManager.activate_loop all_prompts ixs newly s = (Ret newly, s, []).
Proof.
  induction 1 as [|i ixs Hi _ IH]; intros newly s Hcov; [reflexivity|].
  inversion Hcov as [|? ? (p & Hp & Hin) Hcov']; subst.
  destruct (py_getitem_in_range _ _ Hi) as (p' & Hp' & Hget).
  rewrite Hp in Hp'. injection Hp' as <-.
  simpl. unfold bind at 1. rewrite Hget. unfold bind, gets. simpl. rewrite Hin.
  rewrite (IH newly s Hcov'). reflexivity.
Qed.

(** ** Rewriting lemmas for the monad *)

Lemma bind_gets {A B} (g : state -> A) (f : A -> M B) (s : state) :
  bind (gets g) f s = f (g s) s.
Proof. unfold bind, gets. destruct (f (g s) s) as [[r s2] t2]. reflexivity. Qed.

Lemma bind_modify {B} (g : state -> state) (f : unit -> M B) (s : state) :
  bind (modify g) f s = f tt (g s).
Proof. unfold bind, modify. destruct (f tt (g s)) as [[r s2] t2]. reflexivity. Qed.

Lemma bind_record {B} (c : act_call) (f : unit -> M B) (s : state) :
  bind (record_call c) f s = let '(r, s2, t2) := f tt s in (r, s2, c :: t2).
Proof. unfold bind, record_call. reflexivity. Qed.

Lemma bind_run {A B} (m : M A) (f : A -> M B) (s s1 : state) (a : A) :
  m s = (Ret a, s1, []) -> bind m f s = f a s1.
Proof.
  intros H. unfold bind. rewrite H. destruct (f a s1) as [[r s2] t2]. reflexivity.
Qed.

Lemma try_except_ret {A} (m : M A) (h : exn -> M A) (s s1 : state) (a : A) t :
  m s = (Ret a, s1, t) -> try_except m h s = (Ret a, s1, t).
Proof. intros H. unfold try_except. rewrite H. reflexivity. Qed.

Lemma filter_invalid_nil (all_prompts : list prompt) (ixs : list Z) :
  valid_indices all_prompts ixs ->
  filter (fun idx => negb ((0 <=? idx)
                           && (idx <=? Z.of_nat (List.length all_prompts) - 1))) ixs
  = [].
Proof.
  induction 1 as [|i ixs Hi _ IH]; [reflexivity|]. simpl.
  replace ((0 <=? i) && (i <=? Z.of_nat (List.length all_prompts) - 1)) with true
    by (symmetry; apply andb_true_intro; split; [apply Z.leb_le|apply Z.leb_le]; lia).
  exact IH.
Qed.

(** A first call of [activate_multiple_prompts] with valid indices
    succeeds, reaches [activate_prompts] once, leaves the prompt list alone
    and makes every prompt of the indices active. *)
Lemma activate_multiple_prompts_valid (s : state) (ixs : list Z) :
  ixs <> [] -> valid_indices (get_current_prompts s) ixs ->
  exists r s1,
    Controller.activate_multiple_prompts ixs s
      = (Ret r, s1, [(get_current_prompts s, ixs)])
    /\ get_current_prompts s1 = get_current_prompts s
    /\ covered (get_current_prompts s) ixs (active_prompts s1).
Proof.
  intros Hne Hv. unfold Controller.activate_multiple_prompts.
  destruct ixs as [|i0 r]; [congruence|].
  remember (get_current_prompts s) as all eqn:Hall.
  destruct (activate_loop_covers all (i0 :: r) Hv [] s)
    as (n' & a' & Hrun & _ & Hcov).
  destruct all as [|q qs].
  { inversion Hv as [|? ? Hi]; simpl in Hi; lia. }
  destruct n' as [|n0 ns].
  - exists (true, MsgAllAlreadyActive, []), (set_active a' s).
    split; [|split; [rewrite Hall; reflexivity|exact Hcov]].
    apply try_except_ret. rewrite bind_gets, <- Hall.
    cbv zeta. rewrite (filter_invalid_nil _ _ Hv).
    unfold PromptsManager.activate_prompts. unfold bind at 1.
    rewrite bind_record, Hrun. reflexivity.
  - eexists (true, _, _),
      (set_activation_files
         (assoc_set (current_preset_name s) a' (activation_files s)) (set_active a' s)).
    split; [|split; [rewrite Hall; reflexivity|exact Hcov]].
    apply try_except_ret. rewrite bind_gets, <- Hall.
    cbv zeta. rewrite (filter_invalid_nil _ _ Hv).
    unfold PromptsManager.activate_prompts. unfold bind at 1.
    rewrite bind_record, Hrun. reflexivity.
Qed.

(** ** C4: activation is idempotent *)

(** C4 (counterexample to the claim as worded): the empty index list is a
    list of valid indices, yet a second [activate_multiple_prompts []]
    (like the first) returns a failure: the method refuses an empty
    list. *)
Lemma activate_multiple_prompts_empty_list :
  valid_indices (get_current_prompts session_P) []
  /\ result_of (Controller.activate_multiple_prompts []
                  (state_of (Controller.activate_multiple_prompts [] session_P)))
     = Ret (false, MsgEmptyIndexList, []).
Proof. split; [constructor|reflexivity]. Qed.

(** C4 (amended): for every session and every NON-EMPTY list of valid
    indices into the current prompt list, calling
    [activate_multiple_prompts] a second time with the same indices
    returns success with an empty newly-activated list and changes no part
    of the state (so the ActiveSet keeps its contents, order and size). *)
Theorem activate_multiple_prompts_idempotent :
  forall (s : state) (ixs : list Z),
    ixs <> [] -> valid_indices (get_current_prompts s) ixs ->
    let s1 := state_of (Controller.activate_multiple_prompts ixs s) in
    Controller.activate_multiple_prompts ixs s1
    = (Ret (true, MsgAllAlreadyActive, []), s1, [(get_current_prompts s, ixs)]).
Proof.
  intros s ixs Hne Hv.
  destruct (activate_multiple_prompts_valid s ixs Hne Hv)
    as (r & s1 & Hrun & Hcur & Hcov).
  unfold state_of. rewrite Hrun. simpl.
  unfold Controller.activate_multiple_prompts.
  destruct ixs as [|i0 rest]; [congruence|].
  apply try_except_ret. rewrite bind_gets, Hcur.
  remember (get_current_prompts s) as all eqn:Hall.
  destruct all as [|q qs].
  { inversion Hv as [|? ? Hi]; simpl in Hi; lia. }
  cbv zeta. rewrite (filter_invalid_nil _ _ Hv).
  unfold PromptsManager.activate_prompts. unfold bind at 1.
  rewrite bind_record, (activate_loop_noop _ _ Hv [] s1 Hcov).
  reflexivity.
Qed.

(** Witness of C4: indices [0,2] on preset [P]. *)
Lemma activate_multiple_prompts_idempotent_witness :
  [0; 2] <> [] /\ valid_indices (get_current_prompts session_P) [0; 2]
  /\ (let s1 := state_of (Controller.activate_multiple_prompts [0; 2] session_P) in
      Controller.activate_multiple_prompts [0; 2] s1
      = (Ret (true, MsgAllAlreadyActive, []), s1,
         [(get_current_prompts session_P, [0; 2])])).
Proof.
  assert (Hv : valid_indices (get_current_prompts session_P) [0; 2]).
  { unfold valid_indices. simpl. repeat constructor; lia. }
  split; [discriminate|]. split; [exact Hv|].
  apply (activate_multiple_prompts_idempotent session_P [0; 2]);
    [discriminate|exact Hv].
Defined.

(** ** C8: switching to an out-of-range preset *)

Lemma in_range_false {A} (l : list A) (i : Z) :
  ~ (0 <= i < Z.of_nat (List.length l)) -> in_range l i = false.
Proof.
  intros H. unfold in_range.
  destruct (0 <=? i) eqn:H1, (i <? Z.of_nat (List.length l)) eqn:H2; try reflexivity.
  exfalso. apply H. rewrite Z.leb_le in H1. rewrite Z.ltb_lt in H2. lia.
Qed.

(** C8: for every index outside the range of the current preset list
    (including when that list is empty), [switch_preset(index)] returns a
    failure outcome and leaves the whole session state unchanged (current
    preset name, active set, loaded groups, persisted files). *)
Theorem switch_preset_out_of_range :
  forall (s : state) (index : Z),
    ~ (0 <= index < Z.of_nat (List.length (get_preset_list s))) ->
    exists m, Controller.switch_preset index s = (Ret (false, m), s, []).
Proof.
  intros s i Hout. unfold Controller.switch_preset.
  destruct (get_preset_list s) as [|x l] eqn:Hl.
  - exists MsgNoPresets. apply try_except_ret. rewrite bind_gets, Hl. reflexivity.
  - exists (MsgInvalidPresetIndex i). apply try_except_ret. rewrite bind_gets, Hl.
    rewrite (in_range_false _ _ Hout). reflexivity.
Qed.

(** Witness of C8: index 3 on a store holding the single preset [P]. *)
Lemma switch_preset_out_of_range_witness :
  ~ (0 <= 3 < Z.of_nat (List.length (get_preset_list session_P)))
  /\ exists m, Controller.switch_preset 3 session_P = (Ret (false, m), session_P, []).
Proof.
  assert (H : ~ (0 <= 3 < Z.of_nat (List.length (get_preset_list session_P))))
    by (simpl; lia).
  split; [exact H|]. exact (switch_preset_out_of_range session_P 3 H).
Defined.

(** ** C6: refresh_prompts *)

(** C6: when extraction fails, [refresh_prompts] returns a failure with
    empty statistics and changes nothing; when it succeeds with a store,
    it returns success with statistics {number of presets, total number of
    prompts}, the store is the loaded one, the active set is empty, the
    current preset is the first preset name (or "" when there is none),
    and when there is a first preset its persisted groups are the loaded
    groups. *)
Theorem refresh_prompts_outcome :
  (forall s : state,
      Controller.refresh_prompts None s = (Ret (false, MsgExtractFailed, None), s, []))
  /\ (forall (s : state) (store : list (string * preset)),
      exists m,
        let r := Controller.refresh_prompts (Some store) s in
        result_of r
          = Ret (true, m,
                 Some (mkStats (List.length store)
                         (list_sum (map (fun kv => List.length (prompts (snd kv))) store))))
        /\ presets (state_of r) = store
        /\ active_prompts (state_of r) = []
        /\ current_preset_name (state_of r)
           = match map fst store with first :: _ => first | [] => "" end
        /\ (forall first rest, map fst store = first :: rest ->
              prompt_groups (state_of r)
              = match lookup first (group_files s) with Some g => g | None => [] end)
        /\ trace_of r = []).
Proof.
  split; [reflexivity|].
  intros s store.
  destruct store as [|[k v] rest].
  - exists MsgNoPresetsFound. cbn. repeat split. discriminate.
  - eexists. cbn. repeat split.
    intros first rest' Hf. injection Hf as <- _. reflexivity.
Qed.

(** ** C5: removing several active entries by position *)

(** Preset [P] with [A,B,C,D] active. *)
Definition session_ABCD : state :=
  set_active [prompt_A; prompt_B; prompt_C; prompt_D] session_P.

(** C5: the indices are removed from the highest down, so [2,0] removes
    exactly the entries at positions 2 and 0 ([C] and [A]); but a repeated
    index is not de-duplicated: [2,2] removes [C] and then, at the shifted
    position 2, [D], which the caller never selected. *)
Theorem deactivate_multiple_prompts_positions :
  Controller.deactivate_multiple_prompts [2; 0] session_ABCD
    = (Ret (true, MsgDeactivatedMany 2, [prompt_C; prompt_A]),
       set_active [prompt_B; prompt_D] session_ABCD, [])
  /\ Controller.deactivate_multiple_prompts [2; 2] session_ABCD
    = (Ret (true, MsgDeactivatedMany 2, [prompt_C; prompt_D]),
       set_active [prompt_A; prompt_B] session_ABCD, []).
Proof. split; reflexivity. Qed.

(** ** C2: group expansion and index validation *)

(** Preset [P] reduced to [A] after its prompt 1 was deleted, with the
    group [g1 = [0,1]] created before the deletion. *)
Definition session_stale_group : state :=
  mkState "P" [("P", mkPreset [prompt_A] "")] [] [("g1", [0; 1])] [] [].

(** C2: [activate_prompt_group] hands the stored indices of the group to
    [activate_prompts] without checking them: index 1, out of range for
    the one-prompt list, reaches the call, and the whole operation ends in
    the internal-error failure; the sibling [deactivate_prompt_group]
    skips the same stale index and succeeds on the valid one. *)
Theorem activate_prompt_group_unchecked_indices :
  trace_of (Controller.activate_prompt_group "g1" session_stale_group)
    = [([prompt_A], [0; 1])]
  /\ in_range [prompt_A] 1 = false
  /\ result_of (Controller.activate_prompt_group "g1" session_stale_group)
    = Ret (false, MsgGroupActivateInternalError "g1", [])
  /\ result_of (Controller.deactivate_prompt_group "g1"
                  (set_active [prompt_A] session_stale_group))
    = Ret (true, MsgGroupDeactivated "g1" 1, [prompt_A]).
Proof. repeat split. Qed.

(** ** C7: group deactivation with stale indices *)

(** The prompts of the in-range indices of a group, in group order. *)
Definition in_range_prompts (all_prompts : list prompt) (ixs : list Z) : list prompt :=
  flat_map (fun i => if in_range all_prompts i then
                       match nth_error all_prompts (Z.to_nat i) with
                       | Some p => [p] | None => [] end
                     else []) ixs.

Lemma resolve_group_indices_prompts (all_prompts : list prompt) (ixs : list Z) :
  fst (Controller.resolve_group_indices all_prompts
         (Z.of_nat (List.length all_prompts) - 1) ixs)
  = in_range_prompts all_prompts ixs.
Proof.
  induction ixs as [|i ixs IH]; [reflexivity|]. simpl.
  destruct (Controller.resolve_group_indices all_prompts
              (Z.of_nat (List.length all_prompts) - 1) ixs) as [ps inv] eqn:E.
  simpl in IH. unfold in_range.
  replace (i <=? Z.of_nat (List.length all_prompts) - 1)
    with (i <? Z.of_nat (List.length all_prompts))
    by (destruct (i <? Z.of_nat (List.length all_prompts)) eqn:H1;
        destruct (i <=? Z.of_nat (List.length all_prompts) - 1) eqn:H2;
        rewrite ?Z.ltb_lt, ?Z.ltb_ge, ?Z.leb_le, ?Z.leb_gt in *; lia).
  destruct ((0 <=? i) && (i <? Z.of_nat (List.length all_prompts))).
  - destruct (nth_error all_prompts (Z.to_nat i)); simpl; rewrite IH; reflexivity.
  - exact IH.
Qed.

(** A preset [P] with one prompt [A], active, and a group [g] whose only
    index is stale. *)
Definition session_all_stale : state :=
  mkState "P" [("P", mkPreset [prompt_A] "")] [prompt_A] [("g", [3])] [] [].

(** C7 (counterexample to the claim as worded): when every index of the
    group is out of range, [deactivate_prompt_group] fails. *)
Lemma deactivate_prompt_group_all_stale_fails :
  result_of (Controller.deactivate_prompt_group "g" session_all_stale)
  = Ret (false, MsgGroupIndicesInvalid "g", []).
Proof. reflexivity. Qed.

Lemma in_range_prompts_nil (ixs : list Z) : in_range_prompts [] ixs = [].
Proof.
  induction ixs as [|i ixs IH]; [reflexivity|]. simpl.
  destruct (in_range [] i); [destruct (Z.to_nat i)|]; exact IH.
Qed.

(** C7 (amended): for a group [g] of the loaded groups with a non-empty
    name and a non-empty index list, while a preset is selected,
    [deactivate_prompt_group] resolves the indices against the current
    full prompt list: the out-of-range ones are skipped; when no index is
    in range the operation fails and changes nothing; otherwise it
    succeeds and removes from the ActiveSet, by value, exactly the entries
    equal to a prompt of an in-range index, returning them. *)
Theorem deactivate_prompt_group_resolution :
  forall (s : state) (g : string) (ixs : list Z),
    current_preset_name s <> "" -> g <> "" ->
    get_prompt_group g s = Some ixs -> ixs <> [] ->
    let targets := in_range_prompts (get_current_prompts s) ixs in
    (targets = [] ->
       exists m, Controller.deactivate_prompt_group g s = (Ret (false, m, []), s, []))
    /\ (targets <> [] ->
       exists m, Controller.deactivate_prompt_group g s
         = (Ret (true, m, filter (fun p => prompt_in p targets) (active_prompts s)),
            set_active (filter (fun p => negb (prompt_in p targets)) (active_prompts s)) s,
            [])).
Proof.
  intros s g ixs Hc Hg Hgrp Hne. cbv zeta.
  apply String.eqb_neq in Hc, Hg.
  destruct ixs as [|i0 rest]; [congruence|].
  remember (get_current_prompts s) as all eqn:Hall.
  destruct all as [|q qs].
  - rewrite in_range_prompts_nil. split; [|congruence].
    intros _. exists MsgNoPromptsInPreset. apply try_except_ret.
    unfold Controller.deactivate_prompt_group.
    rewrite bind_gets, Hc, Hg, bind_gets, Hgrp, bind_gets, <- Hall. reflexivity.
  - pose proof (resolve_group_indices_prompts (q :: qs) (i0 :: rest)) as Hres.
    destruct (Controller.resolve_group_indices (q :: qs)
                (Z.of_nat (List.length (q :: qs)) - 1) (i0 :: rest))
      as [ptd inv] eqn:E.
    cbn [fst] in Hres. subst ptd.
    split.
    + intros Ht. exists (MsgGroupIndicesInvalid g). apply try_except_ret.
      unfold Controller.deactivate_prompt_group.
      rewrite bind_gets, Hc, Hg, bind_gets, Hgrp, bind_gets, <- Hall.
      cbv zeta. rewrite E, Ht. reflexivity.
    + intros Ht.
      exists (match filter (fun p => prompt_in p (in_range_prompts (q :: qs) (i0 :: rest)))
                     (active_prompts s) with
              | [] => MsgGroupNoneActive g
              | l => MsgGroupDeactivated g (List.length l)
              end).
      apply try_except_ret.
      unfold Controller.deactivate_prompt_group.
      rewrite bind_gets, Hc, Hg, bind_gets, Hgrp, bind_gets, <- Hall.
      cbv zeta. rewrite E.
      destruct (in_range_prompts (q :: qs) (i0 :: rest)) as [|t ts] eqn:Et;
        [congruence|].
      unfold PromptsManager.deactivate_prompts_by_reference.
      unfold bind, gets, modify, ret. simpl.
      destruct (filter (fun p => prompt_eqb p t || prompt_in p ts) (active_prompts s));
        reflexivity.
Qed.

(** Preset [P] with [A,B], both active, and a group [g = [1,7]] whose
    index 7 is stale. *)
Definition session_partly_stale : state :=
  mkState "P" [("P", mkPreset [prompt_A; prompt_B] "")] [prompt_A; prompt_B]
    [("g", [1; 7])] [] [].

(** Witness of C7: index 7 is skipped, [B] is removed. *)
Lemma deactivate_prompt_group_resolution_witness :
  current_preset_name session_partly_stale <> "" /\ "g" <> ""
  /\ get_prompt_group "g" session_partly_stale = Some [1; 7] /\ [1; 7] <> []
  /\ in_range_prompts (get_current_prompts session_partly_stale) [1; 7] <> []
  /\ exists m, Controller.deactivate_prompt_group "g" session_partly_stale
       = (Ret (true, m, [prompt_B]), set_active [prompt_A] session_partly_stale, []).
Proof.
  assert (H1 : current_preset_name session_partly_stale <> "") by discriminate.
  assert (H2 : "g" <> "") by discriminate.
  assert (H3 : get_prompt_group "g" session_partly_stale = Some [1; 7]) by reflexivity.
  assert (H4 : [1; 7] <> []) by discriminate.
  assert (H5 : in_range_prompts (get_current_prompts session_partly_stale) [1; 7] <> [])
    by (vm_compute; discriminate).
  split; [exact H1|]. split; [exact H2|]. split; [exact H3|]. split; [exact H4|].
  split; [exact H5|].
  exact (proj2 (deactivate_prompt_group_resolution session_partly_stale "g" [1; 7]
                  H1 H2 H3 H4) H5).
Defined.

(** ** C10: empty groups *)

(** A selected preset [P] with prompt [A] and an empty group [g]. *)
Definition session_empty_group : state :=
  mkState "P" [("P", mkPreset [prompt_A] "")] [] [("g", [])] [] [].

(** C10 (counterexample to the claim as worded): a refresh that finds no
    preset leaves no preset selected but keeps the loaded groups; the
    empty group [g] still exists, and [deactivate_prompt_group "g"] then
    fails (no preset selected) instead of succeeding. *)
Lemma deactivate_empty_group_without_preset :
  let s1 := state_of (Controller.refresh_prompts (Some []) session_empty_group) in
  get_prompt_group "g" s1 = Some []
  /\ result_of (Controller.deactivate_prompt_group "g" s1)
     = Ret (false, MsgNoPresetSelected, []).
Proof. split; reflexivity. Qed.

(** C10 (amended): while a preset is selected, for an existing empty group
    with a non-empty name, [deactivate_prompt_group] returns success with
    an empty removed list and changes nothing, whereas
    [activate_prompt_group] on the same group returns a failure and
    changes nothing either (it never reaches [activate_prompts]). *)
Theorem empty_group_deactivate_vs_activate :
  forall (s : state) (g : string),
    current_preset_name s <> "" -> g <> "" -> get_prompt_group g s = Some [] ->
    Controller.deactivate_prompt_group g s
      = (Ret (true, MsgGroupEmptyNothingToDo g, []), s, [])
    /\ exists m, Controller.activate_prompt_group g s = (Ret (false, m, []), s, []).
Proof.
  intros s g Hc Hg Hgrp.
  apply String.eqb_neq in Hc, Hg. split.
  - apply try_except_ret. unfold Controller.deactivate_prompt_group.
    rewrite bind_gets, Hc, Hg, bind_gets, Hgrp. reflexivity.
  - unfold Controller.activate_prompt_group.
    destruct (get_current_prompts s) as [|q qs] eqn:Hall.
    + exists MsgNoPromptsInPreset. apply try_except_ret.
      rewrite bind_gets, Hall. reflexivity.
    + exists (MsgGroupEmpty g). apply try_except_ret.
      rewrite bind_gets, Hall, Hg, bind_gets, Hgrp. reflexivity.
Qed.

(** Witness of C10 on [session_empty_group]. *)
Lemma empty_group_deactivate_vs_activate_witness :
  current_preset_name session_empty_group <> "" /\ "g" <> ""
  /\ get_prompt_group "g" session_empty_group = Some []
  /\ Controller.deactivate_prompt_group "g" session_empty_group
       = (Ret (true, MsgGroupEmptyNothingToDo "g", []), session_empty_group, [])
  /\ exists m, Controller.activate_prompt_group "g" session_empty_group
       = (Ret (false, m, []), session_empty_group, []).
Proof.
  assert (H1 : current_preset_name session_empty_group <> "") by discriminate.
  assert (H2 : "g" <> "") by discriminate.
  assert (H3 : get_prompt_group "g" session_empty_group = Some []) by reflexivity.
  split; [exact H1|]. split; [exact H2|]. split; [exact H3|].
  exact (empty_group_deactivate_vs_activate session_empty_group "g" H1 H2 H3).
Defined.

(** ** C3: what the public methods hand back *)










(** * Further properties of the controller *)

(** ** Operations that only touch the in-memory ActiveSet *)

(** A computation that changes no part of the state but the active list,
    whatever its outcome. *)
Definition only_active {A} (m : M A) : Prop :=
  forall s, state_of (m s) = set_active (active_prompts (state_of (m s))) s.

Lemma only_active_ret {A} (a : A) : only_active (ret a).
Proof. intros s. unfold ret, state_of. simpl. symmetry. apply set_active_same. Qed.

Lemma only_active_gets {A} (g : state -> A) : only_active (gets g).
Proof. intros s. unfold gets, state_of. simpl. symmetry. apply set_active_same. Qed.

Lemma only_active_raise {A} (e : exn) : only_active (@raise A e).
Proof. intros s. unfold raise, state_of. simpl. symmetry. apply set_active_same. Qed.

Lemma only_active_record (c : act_call) : only_active (record_call c).
Proof. intros s. unfold record_call, state_of. simpl. symmetry. apply set_active_same. Qed.

Lemma only_active_set_active (l : list prompt) : only_active (modify (set_active l)).
Proof. intros s. reflexivity. Qed.

Lemma only_active_bind {A B} (m : M A) (f : A -> M B) :
  only_active m -> (forall a, only_active (f a)) -> only_active (bind m f).
Proof.
  intros Hm Hf s. specialize (Hm s). unfold bind.
  destruct (m s) as [[[a|e] s1] t1]; unfold state_of in *; simpl in *; [|exact Hm].
  specialize (Hf a s1). unfold state_of in Hf.
  destruct (f a s1) as [[r s2] t2]. simpl in *.
  rewrite Hf at 1. rewrite Hm at 1. reflexivity.
Qed.

Lemma only_active_try {A} (m : M A) (h : exn -> M A) :
  only_active m -> (forall e, only_active (h e)) -> only_active (try_except m h).
Proof.
  intros Hm Hh s. specialize (Hm s). unfold try_except.
  destruct (m s) as [[[a|e] s1] t1]; unfold state_of in *; simpl in *; [exact Hm|].
  specialize (Hh e s1). unfold state_of in Hh.
  destruct (h e s1) as [[r s2] t2]. simpl in *.
  rewrite Hh at 1. rewrite Hm at 1. reflexivity.
Qed.

Lemma only_active_getitem {A} (l : list A) (i : Z) : only_active (py_getitem l i).
Proof.
  unfold py_getitem. cbv zeta.
  destruct (_ && _); [destruct (nth_error _ _)|];
    first [apply only_active_ret | apply only_active_raise].
Qed.

(** One step of the syntax-directed proof of [only_active]. *)
Ltac only_active_step :=
  match goal with
  | |- only_active (bind _ _) => apply only_active_bind; [|intro]
  | |- only_active (try_except _ _) => apply only_active_try; [|intro]
  | |- only_active (ret _) => apply only_active_ret
  | |- only_active (gets _) => apply only_active_gets
  | |- only_active (raise _) => apply only_active_raise
  | |- only_active (record_call _) => apply only_active_record
  | |- only_active (modify (set_active _)) => apply only_active_set_active
  | |- only_active (py_getitem _ _) => apply only_active_getitem
  | |- only_active (let _ := _ in _) => cbv zeta
  | |- only_active (match ?x with _ => _ end) => destruct x
  | |- only_active (if ?b then _ else _) => destruct b
  | |- only_active ((fun _ => _) _) => cbv beta
  end.

Lemma only_active_activate_loop (all_prompts : list prompt) (ixs : list Z)
    (newly : list prompt) :
  only_active (PromptsManager.activate_loop all_prompts ixs newly).
Proof.
  revert newly. induction ixs as [|i ixs IH]; intros newly; simpl;
    repeat (apply IH || only_active_step).
Qed.

Lemma only_active_deactivate_loop (ixs : list Z) (acc : list prompt) :
  only_active (Controller.deactivate_loop ixs acc).
Proof.
  revert acc. induction ixs as [|i ixs IH]; intros acc; simpl;
    unfold PromptsManager.deactivate_prompt;
    repeat (apply IH || only_active_step).
Qed.

Ltac only_active_tac :=
  unfold PromptsManager.activate_prompts, PromptsManager.deactivate_prompts_by_reference,
    PromptsManager.clear_active_prompts;
  repeat (apply only_active_activate_loop || apply only_active_deactivate_loop
          || only_active_step).

(** X1: [activate_prompt_group], [deactivate_multiple_prompts],
    [deactivate_prompt_group] and [clear_active_prompts] change no part of
    the session but the in-memory ActiveSet, whatever their arguments and
    outcome (an exception included): in particular none of them writes the
    preset's activation markers, so their effect is not persisted. *)
Theorem activation_ops_touch_only_active :
  forall (g : string) (ixs : list Z) (s : state),
    (let s1 := state_of (Controller.activate_prompt_group g s) in
     s1 = set_active (active_prompts s1) s)
    /\ (let s1 := state_of (Controller.deactivate_multiple_prompts ixs s) in
        s1 = set_active (active_prompts s1) s)
    /\ (let s1 := state_of (Controller.deactivate_prompt_group g s) in
        s1 = set_active (active_prompts s1) s)
    /\ (let s1 := state_of (Controller.clear_active_prompts s) in
        s1 = set_active (active_prompts s1) s).
Proof.
  intros g ixs s. cbv zeta.
  split; [|split; [|split]]; revert s.
  - change (only_active (Controller.activate_prompt_group g)).
    unfold Controller.activate_prompt_group. only_active_tac.
  - change (only_active (Controller.deactivate_multiple_prompts ixs)).
    unfold Controller.deactivate_multiple_prompts. only_active_tac.
  - change (only_active (Controller.deactivate_prompt_group g)).
    unfold Controller.deactivate_prompt_group. only_active_tac.
  - change (only_active Controller.clear_active_prompts).
    unfold Controller.clear_active_prompts. only_active_tac.
Qed.

(** ** Activation by indices *)

Lemma prompt_eqb_sym (p q : prompt) : prompt_eqb p q = prompt_eqb q p.
Proof.
  destruct p as [n c o], q as [n' c' o']. unfold prompt_eqb. simpl.
  rewrite (String.eqb_sym n), (String.eqb_sym c). destruct o, o'; reflexivity.
Qed.

Lemma prompt_in_app (p : prompt) (a b : list prompt) :
  prompt_in p (a ++ b) = prompt_in p a || prompt_in p b.
Proof. unfold prompt_in. apply existsb_app. Qed.

(** No two entries of the list are equal (Python [==]). *)
Fixpoint distinct_values (l : list prompt) : Prop :=
  match l with
  | [] => True
  | p :: r => prompt_in p r = false /\ distinct_values r
  end.

Lemma distinct_values_snoc (a : list prompt) (p : prompt) :
  distinct_values a -> prompt_in p a = false -> distinct_values (a ++ [p]).
Proof.
  induction a as [|x a IH]; simpl; intros Hd Hp; [split; [reflexivity|exact I]|].
  destruct Hd as [Hx Hd]. apply orb_false_iff in Hp as [Hpx Hpa].
  split; [|apply IH; assumption].
  rewrite prompt_in_app, Hx. simpl. rewrite prompt_eqb_sym, Hpx. reflexivity.
Qed.

(** The range test of the index-list methods, [0 <= idx <= max_index] with
    [max_index = len(l) - 1], is [in_range]. *)
Lemma range_test_in_range {A} (l : list A) (i : Z) :
  (0 <=? i) && (i <=? Z.of_nat (List.length l) - 1) = in_range l i.
Proof.
  unfold in_range. f_equal.
  destruct (i <=? _) eqn:H1, (i <? _) eqn:H2; try reflexivity;
    [rewrite Z.leb_le in H1; rewrite Z.ltb_ge in H2
    |rewrite Z.leb_gt in H1; rewrite Z.ltb_lt in H2]; lia.
Qed.

Lemma in_range_true {A} (l : list A) (i : Z) :
  in_range l i = true <-> 0 <= i < Z.of_nat (List.length l).
Proof.
  unfold in_range. rewrite andb_true_iff, Z.leb_le, Z.ltb_lt. reflexivity.
Qed.

Lemma valid_indices_forallb (l : list prompt) (ixs : list Z) :
  valid_indices l ixs <-> forallb (in_range l) ixs = true.
Proof.
  unfold valid_indices. rewrite Forall_forall, forallb_forall.
  split; intros H i Hi; [apply in_range_true|apply in_range_true]; auto.
Qed.

(** The out-of-range entries of an index list. *)
Definition out_of_range (l : list prompt) (ixs : list Z) : list Z :=
  filter (fun i => negb (in_range l i)) ixs.

Lemma bind_run_t {A B} (m : M A) (f : A -> M B) (s s1 : state) (a : A) t :
  m s = (Ret a, s1, t) ->
  bind m f s = let '(r, s2, t2) := f a s1 in (r, s2, t ++ t2).
Proof. intros H. unfold bind. rewrite H. reflexivity. Qed.

Lemma activate_multiple_prompts_invalid (s : state) (ixs : list Z) (i : Z) :
  In i ixs -> ~ (0 <= i < Z.of_nat (List.length (get_current_prompts s))) ->
  Controller.activate_multiple_prompts ixs s
  = (Ret (false, match get_current_prompts s with
                 | [] => MsgNoPromptsInPreset
                 | all => MsgInvalidPromptIndices (out_of_range all ixs)
                            (Z.of_nat (List.length all) - 1)
                 end, []), s, []).
Proof.
  intros Hi Hout. unfold Controller.activate_multiple_prompts.
  destruct ixs as [|i0 r]; [destruct Hi|].
  apply try_except_ret. rewrite bind_gets.
  destruct (get_current_prompts s) as [|q qs] eqn:Hall; [reflexivity|].
  cbv zeta.
  assert (Hf : filter (fun idx => negb ((0 <=? idx)
                 && (idx <=? Z.of_nat (List.length (q :: qs)) - 1))) (i0 :: r)
               = out_of_range (q :: qs) (i0 :: r)).
  { unfold out_of_range. apply filter_ext. intros j. rewrite range_test_in_range.
    reflexivity. }
  rewrite Hf.
  destruct (out_of_range (q :: qs) (i0 :: r)) as [|j js] eqn:Hnil; [|reflexivity].
  exfalso. assert (Hin : In i (out_of_range (q :: qs) (i0 :: r))).
  { unfold out_of_range. apply filter_In. split; [exact Hi|].
    destruct (in_range (q :: qs) i) eqn:E; [|reflexivity].
    apply in_range_true in E. contradiction. }
  rewrite Hnil in Hin. destruct Hin.
Qed.

(** X2: [activate_multiple_prompts] is all-or-nothing: as soon as one index
    of the list is outside the current prompt list, it returns a failure
    (listing exactly the out-of-range indices when the preset has prompts),
    activates nothing, never calls [activate_prompts] and leaves the whole
    state unchanged. *)
Theorem activate_multiple_prompts_rejects_invalid :
  forall (s : state) (ixs : list Z) (i : Z),
    In i ixs -> ~ (0 <= i < Z.of_nat (List.length (get_current_prompts s))) ->
    Controller.activate_multiple_prompts ixs s
    = (Ret (false, match get_current_prompts s with
                   | [] => MsgNoPromptsInPreset
                   | all => MsgInvalidPromptIndices (out_of_range all ixs)
                              (Z.of_nat (List.length all) - 1)
                   end, []), s, []).
Proof. exact activate_multiple_prompts_invalid. Qed.

(** Witness of X2: indices [0,7] on preset [P] (three prompts). *)
Lemma activate_multiple_prompts_rejects_invalid_witness :
  Controller.activate_multiple_prompts [0; 7] session_P
  = (Ret (false, MsgInvalidPromptIndices [7] 2, []), session_P, []).
Proof.
  apply (activate_multiple_prompts_rejects_invalid session_P [0; 7] 7).
  - simpl. auto.
  - simpl. lia.
Defined.

(** X3: whatever the index list and the session, every call that
    [activate_multiple_prompts] makes to [PromptsManager.activate_prompts]
    passes the current prompt list and only indices inside it (unlike
    [activate_prompt_group], see C2), and at most one such call is made. *)
Theorem activate_multiple_prompts_calls_validated :
  forall (s : state) (ixs : list Z),
    let t := trace_of (Controller.activate_multiple_prompts ixs s) in
    (List.length t <= 1)%nat
    /\ forall c, In c t -> fst c = get_current_prompts s /\ valid_indices (fst c) (snd c).
Proof.
  intros s ixs. cbv zeta.
  destruct (forallb (in_range (get_current_prompts s)) ixs) eqn:Hv.
  - apply valid_indices_forallb in Hv.
    destruct ixs as [|i0 r].
    + split; [simpl; lia|]. intros c []. 
    + destruct (activate_multiple_prompts_valid s (i0 :: r) ltac:(discriminate) Hv)
        as (res & s1 & Hrun & _ & _).
      rewrite Hrun. unfold trace_of. simpl. split; [lia|].
      intros c [<- | []]. split; [reflexivity|exact Hv].
  - apply Bool.not_true_iff_false in Hv. rewrite <- valid_indices_forallb in Hv.
    unfold valid_indices in Hv. rewrite Forall_forall in Hv.
    assert (Hex : exists i, In i ixs
                  /\ ~ (0 <= i < Z.of_nat (List.length (get_current_prompts s)))).
    { destruct (existsb (fun i => negb (in_range (get_current_prompts s) i)) ixs)
        eqn:E.
      - apply existsb_exists in E as (i & Hi & Hn). exists i. split; [exact Hi|].
        rewrite <- in_range_true. destruct (in_range _ i); discriminate.
      - exfalso. apply Hv. intros i Hi.
        rewrite <- in_range_true. destruct (in_range _ i) eqn:Ei; [reflexivity|].
        assert (existsb (fun i => negb (in_range (get_current_prompts s) i)) ixs = true)
          by (apply existsb_exists; exists i; rewrite Ei; auto).
        congruence. }
    destruct Hex as (i & Hi & Hout).
    rewrite (activate_multiple_prompts_invalid s ixs i Hi Hout).
    unfold trace_of. simpl. split; [lia|]. intros c [].
Qed.

(** Witness of X3: indices [0; 2] on preset [P]. *)
Lemma activate_multiple_prompts_calls_validated_witness :
  let t := trace_of (Controller.activate_multiple_prompts [0; 2] session_P) in
  (List.length t <= 1)%nat
  /\ forall c, In c t -> fst c = get_current_prompts session_P
                         /\ valid_indices (fst c) (snd c).
Proof. exact (activate_multiple_prompts_calls_validated session_P [0; 2]). Defined.


(** The activation loop on valid indices appends the prompts that were not
    active yet, each one fresh, and keeps the active list free of equal
    entries. *)
Lemma activate_loop_appends (all_prompts : list prompt) (ixs : list Z) :
  valid_indices all_prompts ixs ->
  forall newly s, exists added,
    PromptsManager.activate_loop all_prompts ixs newly s
      = (Ret (newly ++ added), set_active (active_prompts s ++ added) s, [])
    /\ (forall p, In p added -> In p all_prompts /\ prompt_in p (active_prompts s) = false)
    /\ (distinct_values (active_prompts s) ->
        distinct_values (active_prompts s ++ added)).
Proof.
  induction 1 as [|i ixs Hi _ IH]; intros newly s.
  - exists []. rewrite !app_nil_r, set_active_same.
    split; [reflexivity|]. split; [intros p []|auto].
  - destruct (py_getitem_in_range _ _ Hi) as (p & Hp & Hget).
    simpl. unfold bind at 1. rewrite Hget. unfold bind, gets, modify. simpl.
    destruct (prompt_in p (active_prompts s)) eqn:Hin.
    + destruct (IH newly s) as (added & Hrun & Hfresh & Hd).
      rewrite Hrun. exists added. auto.
    + destruct (IH (newly ++ [p]) (set_active (active_prompts s ++ [p]) s))
        as (added & Hrun & Hfresh & Hd).
      rewrite Hrun. simpl in *. exists (p :: added). rewrite set_active_twice.
      rewrite <- !app_assoc. split; [reflexivity|]. split.
      * intros q [<- | Hq].
        -- split; [eapply nth_error_In; exact Hp|exact Hin].
        -- destruct (Hfresh q Hq) as [Hq1 Hq2]. split; [exact Hq1|].
           rewrite prompt_in_app in Hq2. apply orb_false_iff in Hq2. apply Hq2.
      * intros Hd0. change (active_prompts s ++ p :: added)
          with (active_prompts s ++ [p] ++ added). rewrite app_assoc.
        apply Hd. apply distinct_values_snoc; assumption.
Qed.

Lemma activate_multiple_prompts_valid_run (s : state) (ixs : list Z) :
  ixs <> [] -> valid_indices (get_current_prompts s) ixs ->
  exists added,
    (forall p, In p added ->
               In p (get_current_prompts s) /\ prompt_in p (active_prompts s) = false)
    /\ (distinct_values (active_prompts s) ->
        distinct_values (active_prompts s ++ added))
    /\ Controller.activate_multiple_prompts ixs s
       = match added with
         | [] => (Ret (true, MsgAllAlreadyActive, []), s, [(get_current_prompts s, ixs)])
         | _ => (Ret (true, MsgActivatedMany (List.length added), added),
                 set_activation_files
                   (assoc_set (current_preset_name s) (active_prompts s ++ added)
                      (activation_files s))
                   (set_active (active_prompts s ++ added) s),
                 [(get_current_prompts s, ixs)])
         end.
Proof.
  intros Hne Hv. unfold Controller.activate_multiple_prompts.
  destruct ixs as [|i0 r]; [congruence|].
  remember (get_current_prompts s) as all eqn:Hall.
  destruct (activate_loop_appends all (i0 :: r) Hv [] s)
    as (added & Hrun & Hfresh & Hd).
  exists added. split; [exact Hfresh|]. split; [exact Hd|].
  destruct all as [|q qs].
  { inversion Hv as [|? ? Hi]; simpl in Hi; lia. }
  destruct added as [|a added];
    [rewrite !app_nil_r, set_active_same in Hrun|];
    apply try_except_ret; rewrite bind_gets, <- Hall;
    cbv zeta; rewrite (filter_invalid_nil _ _ Hv);
    unfold PromptsManager.activate_prompts; unfold bind at 1;
    rewrite bind_record, Hrun; reflexivity.
Qed.

(** X4: on a non-empty list of valid indices, [activate_multiple_prompts]
    succeeds, makes exactly one [activate_prompts] call and appends to the
    ActiveSet the returned prompts, which come from the current prompt
    list and were not active before (and if the ActiveSet had no two equal
    entries, it still has none).  When something was added the new
    ActiveSet is saved as the preset's markers; otherwise nothing changes
    at all. *)
Theorem activate_multiple_prompts_appends :
  forall (s : state) (ixs : list Z),
    ixs <> [] -> valid_indices (get_current_prompts s) ixs ->
    exists added,
      (forall p, In p added ->
                 In p (get_current_prompts s) /\ prompt_in p (active_prompts s) = false)
      /\ (distinct_values (active_prompts s) ->
          distinct_values (active_prompts s ++ added))
      /\ Controller.activate_multiple_prompts ixs s
         = match added with
           | [] => (Ret (true, MsgAllAlreadyActive, []), s, [(get_current_prompts s, ixs)])
           | _ => (Ret (true, MsgActivatedMany (List.length added), added),
                   set_activation_files
                     (assoc_set (current_preset_name s) (active_prompts s ++ added)
                        (activation_files s))
                     (set_active (active_prompts s ++ added) s),
                   [(get_current_prompts s, ixs)])
           end.
Proof. exact activate_multiple_prompts_valid_run. Qed.

(** Witness of X4: indices [2,0,2] on preset [P]. *)
Lemma activate_multiple_prompts_appends_witness :
  exists added,
    (forall p, In p added ->
               In p (get_current_prompts session_P)
               /\ prompt_in p (active_prompts session_P) = false)
    /\ (distinct_values (active_prompts session_P) ->
        distinct_values (active_prompts session_P ++ added))
    /\ Controller.activate_multiple_prompts [2; 0; 2] session_P
       = match added with
         | [] => (Ret (true, MsgAllAlreadyActive, []), session_P,
                  [(get_current_prompts session_P, [2; 0; 2])])
         | _ => (Ret (true, MsgActivatedMany (List.length added), added),
                 set_activation_files
                   (assoc_set (current_preset_name session_P)
                      (active_prompts session_P ++ added) (activation_files session_P))
                   (set_active (active_prompts session_P ++ added) session_P),
                 [(get_current_prompts session_P, [2; 0; 2])])
         end.
Proof.
  apply (activate_multiple_prompts_appends session_P [2; 0; 2]).
  - discriminate.
  - unfold valid_indices. simpl. repeat constructor; lia.
Defined.

Lemma activate_prompt_in_range_run (s : state) (i : Z) (p : prompt) :
  0 <= i -> nth_error (get_current_prompts s) (Z.to_nat i) = Some p ->
  Controller.activate_prompt i s
  = if prompt_in p (active_prompts s)
    then (Ret (true, MsgAlreadyActive (name p), Some p), s, [])
    else (Ret (true, MsgActivated (name p), Some p),
          set_activation_files
            (assoc_set (current_preset_name s) (active_prompts s ++ [p])
               (activation_files s))
            (set_active (active_prompts s ++ [p]) s),
          [(get_current_prompts s, [i])]).
Proof.
  intros H0 Hp.
  assert (Hr : 0 <= i < Z.of_nat (List.length (get_current_prompts s))).
  { split; [exact H0|]. assert (Z.to_nat i < List.length (get_current_prompts s))%nat
      by (apply nth_error_Some; congruence). lia. }
  unfold Controller.activate_prompt.
  destruct (py_getitem_in_range _ _ Hr) as (x & Hx & Hget).
  rewrite Hp in Hx. injection Hx as <-.
  destruct (prompt_in p (active_prompts s)) eqn:Hin;
    apply try_except_ret; rewrite bind_gets;
    destruct (get_current_prompts s) as [|q qs] eqn:Hall;
    try (simpl in Hr; lia);
    replace (in_range (q :: qs) i) with true by (symmetry; apply in_range_true; exact Hr);
    rewrite (bind_run _ _ _ _ _ (Hget s)), bind_gets, Hin; [reflexivity|].
  assert (Hact : PromptsManager.activate_prompts (q :: qs) [i] s
                 = (Ret [p], set_active (active_prompts s ++ [p]) s, [(q :: qs, [i])])).
  { unfold PromptsManager.activate_prompts. rewrite bind_record.
    cbn [PromptsManager.activate_loop].
    rewrite (bind_run _ _ _ _ _ (Hget s)), bind_gets, Hin, bind_modify. reflexivity. }
  rewrite (bind_run_t _ _ _ _ _ _ Hact). reflexivity.
Qed.

(** X5: [activate_prompt(index)] with an index inside the current prompt
    list: if a prompt equal to [all_prompts[index]] is already active it
    succeeds and changes nothing; otherwise it appends that prompt to the
    end of the ActiveSet, saves the new ActiveSet as the preset's markers
    and succeeds, returning the prompt. *)
Theorem activate_prompt_in_range :
  forall (s : state) (i : Z) (p : prompt),
    0 <= i -> nth_error (get_current_prompts s) (Z.to_nat i) = Some p ->
    Controller.activate_prompt i s
    = if prompt_in p (active_prompts s)
      then (Ret (true, MsgAlreadyActive (name p), Some p), s, [])
      else (Ret (true, MsgActivated (name p), Some p),
            set_activation_files
              (assoc_set (current_preset_name s) (active_prompts s ++ [p])
                 (activation_files s))
              (set_active (active_prompts s ++ [p]) s),
            [(get_current_prompts s, [i])]).
Proof. exact activate_prompt_in_range_run. Qed.

(** Witness of X5: index 1 (prompt [B]) on preset [P]. *)
Lemma activate_prompt_in_range_witness :
  Controller.activate_prompt 1 session_P
  = (Ret (true, MsgActivated "B", Some prompt_B),
     set_activation_files [("P", [prompt_B])] (set_active [prompt_B] session_P),
     [([prompt_A; prompt_B; prompt_C], [1])]).
Proof. apply (activate_prompt_in_range session_P 1 prompt_B); [lia|reflexivity]. Defined.

Lemma deactivate_prompt_in_range_run (s : state) (i : Z) (p : prompt) :
  0 <= i -> nth_error (active_prompts s) (Z.to_nat i) = Some p ->
  Controller.deactivate_prompt i s
  = (Ret (true, MsgDeactivated (name p), Some p),
     set_activation_files
       (assoc_set (current_preset_name s) (PromptsManager.remove_at (Z.to_nat i) (active_prompts s))
          (activation_files s))
       (set_active (PromptsManager.remove_at (Z.to_nat i) (active_prompts s)) s),
     []).
Proof.
  intros H0 Hp.
  assert (Hr : 0 <= i < Z.of_nat (List.length (active_prompts s))).
  { split; [exact H0|]. assert (Z.to_nat i < List.length (active_prompts s))%nat
      by (apply nth_error_Some; congruence). lia. }
  assert (Hd : PromptsManager.deactivate_prompt i s
               = (Ret (Some p), set_active (PromptsManager.remove_at (Z.to_nat i) (active_prompts s)) s, [])).
  { unfold PromptsManager.deactivate_prompt. rewrite bind_gets.
    replace (in_range (active_prompts s) i) with true
      by (symmetry; apply in_range_true; exact Hr).
    rewrite Hp, bind_modify. reflexivity. }
  unfold Controller.deactivate_prompt. apply try_except_ret. rewrite bind_gets.
  destruct (active_prompts s) as [|q qs] eqn:Ha; [simpl in Hr; lia|].
  replace (in_range (q :: qs) i) with true by (symmetry; apply in_range_true; exact Hr).
  rewrite (bind_run _ _ _ _ _ Hd). reflexivity.
Qed.

(** X6: [deactivate_prompt(index)] with an index inside the ActiveSet
    removes exactly the entry at that position (the others keep their
    order), saves the new ActiveSet as the preset's markers and succeeds,
    returning the removed prompt. *)
Theorem deactivate_prompt_in_range :
  forall (s : state) (i : Z) (p : prompt),
    0 <= i -> nth_error (active_prompts s) (Z.to_nat i) = Some p ->
    Controller.deactivate_prompt i s
    = (Ret (true, MsgDeactivated (name p), Some p),
       set_activation_files
         (assoc_set (current_preset_name s) (PromptsManager.remove_at (Z.to_nat i) (active_prompts s))
            (activation_files s))
         (set_active (PromptsManager.remove_at (Z.to_nat i) (active_prompts s)) s),
       []).
Proof. exact deactivate_prompt_in_range_run. Qed.

(** Witness of X6: position 1 of the ActiveSet [A,B,C]. *)
Lemma deactivate_prompt_in_range_witness :
  Controller.deactivate_prompt 1 (set_active [prompt_A; prompt_B; prompt_C] session_P)
  = (Ret (true, MsgDeactivated "B", Some prompt_B),
     set_activation_files [("P", [prompt_A; prompt_C])]
       (set_active [prompt_A; prompt_C] session_P),
     []).
Proof.
  apply (deactivate_prompt_in_range (set_active [prompt_A; prompt_B; prompt_C] session_P)
           1 prompt_B); [lia|reflexivity].
Defined.

(** X7: the single-index methods reject an index outside their list
    ([activate_prompt]: the current prompt list; [deactivate_prompt]: the
    ActiveSet) with a failure, and leave the whole state unchanged. *)
Theorem single_index_ops_reject_out_of_range :
  forall (s : state) (i : Z),
    (~ (0 <= i < Z.of_nat (List.length (get_current_prompts s))) ->
     exists m, Controller.activate_prompt i s = (Ret (false, m, None), s, []))
    /\ (~ (0 <= i < Z.of_nat (List.length (active_prompts s))) ->
        exists m, Controller.deactivate_prompt i s = (Ret (false, m, None), s, [])).
Proof.
  intros s i. split; intros Hout.
  - unfold Controller.activate_prompt.
    destruct (get_current_prompts s) as [|q qs] eqn:Hall; eexists;
      apply try_except_ret; rewrite bind_gets, Hall; [reflexivity|].
    rewrite (in_range_false _ _ Hout). reflexivity.
  - unfold Controller.deactivate_prompt.
    destruct (active_prompts s) as [|q qs] eqn:Ha; eexists;
      apply try_except_ret; rewrite bind_gets, Ha; [reflexivity|].
    rewrite (in_range_false _ _ Hout). reflexivity.
Qed.

(** Witness of X7: index 3 on preset [P], and index 0 with nothing
    active. *)
Lemma single_index_ops_reject_out_of_range_witness :
  (exists m, Controller.activate_prompt 3 session_P = (Ret (false, m, None), session_P, []))
  /\ (exists m, Controller.deactivate_prompt 0 session_P
                = (Ret (false, m, None), session_P, [])).
Proof.
  split.
  - apply (proj1 (single_index_ops_reject_out_of_range session_P 3)). simpl. lia.
  - apply (proj2 (single_index_ops_reject_out_of_range session_P 0)). simpl. lia.
Defined.

(** ** Deactivation by positions *)

(** The entries of [l] whose position (counted from [k]) is not one of
    [ixs]. *)
Fixpoint keep_except {A} (l : list A) (k : Z) (ixs : list Z) : list A :=
  match l with
  | [] => []
  | x :: r => if existsb (Z.eqb k) ixs then keep_except r (k + 1) ixs
              else x :: keep_except r (k + 1) ixs
  end.

(** The entries of [l] at the positions [ks], in the order of [ks]. *)
Fixpoint entries_at {A} (l : list A) (ks : list Z) : list A :=
  match ks with
  | [] => []
  | k :: r => match nth_error l (Z.to_nat k) with
              | Some x => x :: entries_at l r
              | None => entries_at l r
              end
  end.

Lemma existsb_eqb_In (k : Z) (l : list Z) : existsb (Z.eqb k) l = true <-> In k l.
Proof.
  rewrite existsb_exists. split.
  - intros (x & Hx & E). apply Z.eqb_eq in E. subst. exact Hx.
  - intros H. exists k. split; [exact H|apply Z.eqb_refl].
Qed.

Lemma keep_except_ext {A} (l : list A) (k : Z) (a b : list Z) :
  (forall z, In z a <-> In z b) -> keep_except l k a = keep_except l k b.
Proof.
  intros H. revert k. induction l as [|x l IH]; intros k; simpl; [reflexivity|].
  assert (E : existsb (Z.eqb k) a = existsb (Z.eqb k) b).
  { destruct (existsb (Z.eqb k) a) eqn:Ea, (existsb (Z.eqb k) b) eqn:Eb;
      try reflexivity; exfalso;
      [apply existsb_eqb_In, H in Ea|apply existsb_eqb_In, H in Eb];
      [apply existsb_eqb_In in Ea|apply existsb_eqb_In in Eb]; congruence. }
  rewrite E, IH. reflexivity.
Qed.

Lemma keep_except_none {A} (l : list A) (k : Z) (ixs : list Z) :
  Forall (fun i => i < k) ixs -> keep_except l k ixs = l.
Proof.
  revert k. induction l as [|x l IH]; intros k Hlt; simpl; [reflexivity|].
  destruct (existsb (Z.eqb k) ixs) eqn:E.
  - apply existsb_eqb_In in E. rewrite Forall_forall in Hlt.
    specialize (Hlt k E). lia.
  - rewrite IH; [reflexivity|]. eapply Forall_impl; [|exact Hlt]. simpl. lia.
Qed.

Lemma keep_except_remove {A} (l : list A) (k : nat) (off : Z) (ixs : list Z) :
  (k < List.length l)%nat -> Forall (fun i => i < off + Z.of_nat k) ixs ->
  keep_except (PromptsManager.remove_at k l) off ixs
  = keep_except l off ((off + Z.of_nat k) :: ixs).
Proof.
  revert k off. induction l as [|x l IH]; intros k off Hk Hlt; [simpl in Hk; lia|].
  destruct k as [|k].
  - unfold PromptsManager.remove_at. simpl. rewrite Z.add_0_r, Z.eqb_refl. simpl.
    rewrite Z.add_0_r in Hlt.
    rewrite !keep_except_none; [reflexivity| |exact Hlt].
    constructor; [lia|]. eapply Forall_impl; [|exact Hlt]. simpl. lia.
  - change (PromptsManager.remove_at (S k) (x :: l))
      with (x :: PromptsManager.remove_at k l).
    cbn [keep_except existsb].
    replace (off =? off + Z.of_nat (S k)) with false by (symmetry; apply Z.eqb_neq; lia).
    cbn [orb]. rewrite IH by ((simpl in Hk; lia) || (eapply Forall_impl; [|exact Hlt]; simpl; lia)).
    replace (off + 1 + Z.of_nat k) with (off + Z.of_nat (S k)) by lia.
    reflexivity.
Qed.

Lemma nth_error_remove_before {A} (l : list A) (k j : nat) :
  (j < k)%nat -> nth_error (PromptsManager.remove_at k l) j = nth_error l j.
Proof.
  revert k j. induction l as [|x l IH]; intros k j Hj.
  - unfold PromptsManager.remove_at. rewrite firstn_nil. reflexivity.
  - destruct k as [|k]; [lia|].
    change (PromptsManager.remove_at (S k) (x :: l))
      with (x :: PromptsManager.remove_at k l).
    destruct j as [|j]; [reflexivity|]. simpl. apply IH. lia.
Qed.

Lemma length_remove_at {A} (l : list A) (k : nat) :
  (k < List.length l)%nat -> List.length (PromptsManager.remove_at k l) = (List.length l - 1)%nat.
Proof.
  intros Hk. unfold PromptsManager.remove_at.
  rewrite length_app, length_firstn, length_skipn. lia.
Qed.

Lemma entries_at_remove {A} (l : list A) (k : nat) (ks : list Z) :
  Forall (fun j => 0 <= j < Z.of_nat k) ks ->
  entries_at (PromptsManager.remove_at k l) ks = entries_at l ks.
Proof.
  induction 1 as [|j ks Hj _ IH]; simpl; [reflexivity|].
  rewrite nth_error_remove_before by lia. rewrite IH. reflexivity.
Qed.

Lemma deactivate_loop_desc (ks : list Z) :
  StronglySorted (fun a b => b < a) ks ->
  forall acc s, Forall (fun k => 0 <= k < Z.of_nat (List.length (active_prompts s))) ks ->
  Controller.deactivate_loop ks acc s
  = (Ret (acc ++ entries_at (active_prompts s) ks),
     set_active (keep_except (active_prompts s) 0 ks) s, []).
Proof.
  induction 1 as [|k ks _ IH Hlt]; intros acc s Hr.
  - simpl. rewrite app_nil_r, keep_except_none by constructor.
    rewrite set_active_same. reflexivity.
  - inversion Hr as [|? ? Hk Hr']; subst.
    destruct (nth_error (active_prompts s) (Z.to_nat k)) as [p|] eqn:Hp;
      [|apply nth_error_None in Hp; lia].
    assert (Hd : PromptsManager.deactivate_prompt k s
                 = (Ret (Some p),
                    set_active (PromptsManager.remove_at (Z.to_nat k) (active_prompts s)) s,
                    [])).
    { unfold PromptsManager.deactivate_prompt. rewrite bind_gets.
      replace (in_range (active_prompts s) k) with true
        by (symmetry; apply in_range_true; exact Hk).
      rewrite Hp, bind_modify. reflexivity. }
    cbn [Controller.deactivate_loop]. rewrite (bind_run _ _ _ _ _ Hd).
    rewrite Forall_forall in Hlt.
    assert (Hks : Forall (fun j => 0 <= j < Z.of_nat (Z.to_nat k)) ks).
    { rewrite Forall_forall in Hr' |- *. intros j Hj.
      specialize (Hr' j Hj). specialize (Hlt j Hj). lia. }
    rewrite IH.
    + cbn [active_prompts set_active]. rewrite set_active_twice.
      rewrite entries_at_remove by exact Hks.
      rewrite keep_except_remove by
        ((apply nth_error_Some; congruence)
         || (eapply Forall_impl; [|exact Hks]; simpl; lia)).
      replace (0 + Z.of_nat (Z.to_nat k)) with k by lia.
      simpl. rewrite Hp, <- app_assoc. reflexivity.
    + cbn [active_prompts set_active].
      rewrite length_remove_at by (apply nth_error_Some; congruence).
      rewrite Forall_forall in Hr' |- *. intros j Hj.
      specialize (Hr' j Hj). specialize (Hlt j Hj). lia.
Qed.

Lemma insert_desc_In (x z : Z) (l : list Z) :
  In z (Controller.insert_desc x l) <-> z = x \/ In z l.
Proof.
  induction l as [|y l IH]; simpl; [intuition congruence|].
  destruct (y <? x); simpl; [intuition congruence|]. rewrite IH. intuition congruence.
Qed.

Lemma insert_desc_sorted (x : Z) (l : list Z) :
  StronglySorted (fun a b => b < a) l -> ~ In x l ->
  StronglySorted (fun a b => b < a) (Controller.insert_desc x l).
Proof.
  induction 1 as [|y l Hl IH Hy]; intros Hx; simpl.
  - repeat constructor.
  - rewrite Forall_forall in Hy.
    destruct (y <? x) eqn:E.
    + apply Z.ltb_lt in E. constructor; [constructor; [exact Hl|]; apply Forall_forall; exact Hy|].
      constructor; [exact E|]. apply Forall_forall. intros z Hz. specialize (Hy z Hz). lia.
    + apply Z.ltb_ge in E. assert (x <> y) by (intros ->; apply Hx; left; reflexivity).
      constructor.
      * apply IH. intros H'. apply Hx. right. exact H'.
      * apply Forall_forall. intros z Hz. apply insert_desc_In in Hz as [->|Hz]; [lia|].
        apply Hy. exact Hz.
Qed.

Lemma sort_desc_In (z : Z) (l : list Z) : In z (Controller.sort_desc l) <-> In z l.
Proof.
  induction l as [|x l IH]; simpl; [tauto|]. rewrite insert_desc_In, IH. intuition congruence.
Qed.

Lemma sort_desc_sorted (l : list Z) :
  NoDup l -> StronglySorted (fun a b => b < a) (Controller.sort_desc l).
Proof.
  induction 1 as [|x l Hx _ IH]; simpl; [constructor|].
  apply insert_desc_sorted; [exact IH|]. rewrite sort_desc_In. exact Hx.
Qed.

Lemma length_insert_desc (x : Z) (l : list Z) :
  List.length (Controller.insert_desc x l) = S (List.length l).
Proof. induction l as [|y l IH]; simpl; [reflexivity|]. destruct (y <? x); simpl; lia. Qed.

Lemma length_sort_desc (l : list Z) : List.length (Controller.sort_desc l) = List.length l.
Proof. induction l as [|x l IH]; simpl; [reflexivity|]. rewrite length_insert_desc. lia. Qed.

Lemma length_entries_at {A} (l : list A) (ks : list Z) :
  Forall (fun k => 0 <= k < Z.of_nat (List.length l)) ks ->
  List.length (entries_at l ks) = List.length ks.
Proof.
  induction 1 as [|k ks Hk _ IH]; simpl; [reflexivity|].
  destruct (nth_error l (Z.to_nat k)) eqn:E; [simpl; lia|].
  apply nth_error_None in E. lia.
Qed.

Lemma code_valid_filter (l : list prompt) (ixs : list Z) :
  filter (fun idx => (0 <=? idx) && (idx <=? Z.of_nat (List.length l) - 1)) ixs
  = filter (in_range l) ixs.
Proof. apply filter_ext. intros i. apply range_test_in_range. Qed.

Lemma code_invalid_filter (l : list prompt) (ixs : list Z) :
  filter (fun idx => negb ((0 <=? idx) && (idx <=? Z.of_nat (List.length l) - 1))) ixs
  = out_of_range l ixs.
Proof. apply filter_ext. intros i. rewrite range_test_in_range. reflexivity. Qed.

Lemma filter_idem {A} (f : A -> bool) (l : list A) : filter f (filter f l) = filter f l.
Proof.
  induction l as [|x l IH]; simpl; [reflexivity|].
  destruct (f x) eqn:E; simpl; rewrite ?E, IH; reflexivity.
Qed.

Lemma out_of_range_filter (l : list prompt) (ixs : list Z) :
  out_of_range l (filter (in_range l) ixs) = [].
Proof.
  unfold out_of_range. induction ixs as [|i ixs IH]; simpl; [reflexivity|].
  destruct (in_range l i) eqn:E; simpl; rewrite ?E; simpl; exact IH.
Qed.

Lemma filter_in_range_valid (l : list prompt) (ixs : list Z) :
  valid_indices l ixs -> filter (in_range l) ixs = ixs /\ out_of_range l ixs = [].
Proof.
  unfold out_of_range.
  induction 1 as [|i ixs Hi _ [IH1 IH2]]; simpl; [auto|].
  replace (in_range l i) with true by (symmetry; apply in_range_true; exact Hi).
  simpl. rewrite IH1, IH2. auto.
Qed.

Lemma filter_in_range_invalid (l : list prompt) (ixs : list Z) :
  Forall (fun i => ~ (0 <= i < Z.of_nat (List.length l))) ixs ->
  filter (in_range l) ixs = [] /\ out_of_range l ixs = ixs.
Proof.
  unfold out_of_range.
  induction 1 as [|i ixs Hi _ [IH1 IH2]]; simpl; [auto|].
  rewrite (in_range_false _ _ Hi). simpl. rewrite IH1, IH2. auto.
Qed.

Lemma deactivate_multiple_prompts_distinct_run (s : state) (ixs : list Z) :
  ixs <> [] -> NoDup ixs -> valid_indices (active_prompts s) ixs ->
  Controller.deactivate_multiple_prompts ixs s
  = (Ret (true, MsgDeactivatedMany (List.length ixs),
          entries_at (active_prompts s) (Controller.sort_desc ixs)),
     set_active (keep_except (active_prompts s) 0 ixs) s, []).
Proof.
  intros Hne Hnd Hv.
  assert (Hvs : Forall (fun k => 0 <= k < Z.of_nat (List.length (active_prompts s)))
                  (Controller.sort_desc ixs)).
  { unfold valid_indices in Hv. rewrite Forall_forall in Hv |- *.
    intros k Hk. apply Hv. apply sort_desc_In. exact Hk. }
  rewrite <- (keep_except_ext (active_prompts s) 0 (Controller.sort_desc ixs) ixs)
    by (intros z; apply sort_desc_In).
  rewrite <- (length_sort_desc ixs), <- (length_entries_at (active_prompts s) _ Hvs).
  pose proof (deactivate_loop_desc (Controller.sort_desc ixs) (sort_desc_sorted ixs Hnd) [] s Hvs)
    as Hloop.
  pose proof (length_entries_at (active_prompts s) _ Hvs) as Hlen.
  rewrite length_sort_desc in Hlen.
  unfold Controller.deactivate_multiple_prompts.
  destruct ixs as [|i0 r]; [congruence|].
  apply try_except_ret. rewrite bind_gets.
  destruct (filter_in_range_valid _ _ Hv) as [Hf1 Hf2].
  destruct (active_prompts s) as [|q qs] eqn:Ha.
  { inversion Hv as [|? ? Hi]; simpl in Hi; lia. }
  cbv zeta. rewrite code_valid_filter, code_invalid_filter, Hf1, Hf2.
  rewrite (bind_run _ _ _ _ _ Hloop). simpl app.
  destruct (entries_at (q :: qs) (Controller.sort_desc (i0 :: r))) as [|p ps];
    [simpl in Hlen; discriminate|reflexivity].
Qed.

(** X8: [deactivate_multiple_prompts] with a non-empty list of DISTINCT
    positions inside the ActiveSet removes exactly the entries at those
    positions of the ActiveSet as it was before the call (the others keep
    their order), returns them in descending position order, and changes
    nothing else (in particular, the markers are not saved). *)
Theorem deactivate_multiple_prompts_distinct :
  forall (s : state) (ixs : list Z),
    ixs <> [] -> NoDup ixs -> valid_indices (active_prompts s) ixs ->
    Controller.deactivate_multiple_prompts ixs s
    = (Ret (true, MsgDeactivatedMany (List.length ixs),
            entries_at (active_prompts s) (Controller.sort_desc ixs)),
       set_active (keep_except (active_prompts s) 0 ixs) s, []).
Proof. exact deactivate_multiple_prompts_distinct_run. Qed.

(** Witness of X8: positions [0,2] of the ActiveSet [A,B,C,D]. *)
Lemma deactivate_multiple_prompts_distinct_witness :
  Controller.deactivate_multiple_prompts [0; 2]
    (set_active [prompt_A; prompt_B; prompt_C; prompt_D] session_P)
  = (Ret (true, MsgDeactivatedMany 2, [prompt_C; prompt_A]),
     set_active [prompt_B; prompt_D] session_P, []).
Proof.
  apply (deactivate_multiple_prompts_distinct
           (set_active [prompt_A; prompt_B; prompt_C; prompt_D] session_P) [0; 2]).
  - discriminate.
  - repeat constructor; simpl; lia.
  - unfold valid_indices. simpl. repeat constructor; lia.
Defined.

(** X9: in [deactivate_multiple_prompts], out-of-range positions are
    ignored as soon as one position is inside the ActiveSet: the call
    behaves exactly as the call with the in-range positions alone; when
    every position of a non-empty list is out of range, it fails and
    leaves the whole state unchanged. *)
Theorem deactivate_multiple_prompts_ignores_invalid :
  forall (s : state) (ixs : list Z),
    ((exists i, In i ixs /\ 0 <= i < Z.of_nat (List.length (active_prompts s))) ->
     Controller.deactivate_multiple_prompts ixs s
     = Controller.deactivate_multiple_prompts
         (filter (in_range (active_prompts s)) ixs) s)
    /\ (ixs <> [] ->
        Forall (fun i => ~ (0 <= i < Z.of_nat (List.length (active_prompts s)))) ixs ->
        exists m, Controller.deactivate_multiple_prompts ixs s
                  = (Ret (false, m, []), s, [])).
Proof.
  intros s ixs. split.
  - intros (i & Hi & Hr).
    assert (HiV : In i (filter (in_range (active_prompts s)) ixs)).
    { apply filter_In. split; [exact Hi|]. apply in_range_true. exact Hr. }
    pose proof (filter_idem (in_range (active_prompts s)) ixs) as Hidem.
    pose proof (out_of_range_filter (active_prompts s) ixs) as Hout.
    unfold Controller.deactivate_multiple_prompts.
    destruct ixs as [|i0 r]; [destruct Hi|].
    destruct (filter (in_range (active_prompts s)) (i0 :: r)) as [|v vs] eqn:HV;
      [destruct HiV|].
    unfold try_except. rewrite !bind_gets.
    destruct (active_prompts s) as [|q qs] eqn:Ha; [simpl in Hr; lia|].
    cbv zeta. rewrite !code_valid_filter, !code_invalid_filter, HV, Hidem, Hout.
    destruct (out_of_range (q :: qs) (i0 :: r)); reflexivity.
  - intros Hne Hall.
    destruct (filter_in_range_invalid _ _ Hall) as [Hf1 Hf2].
    unfold Controller.deactivate_multiple_prompts.
    destruct ixs as [|i0 r]; [congruence|].
    destruct (active_prompts s) as [|q qs] eqn:Ha; eexists;
      apply try_except_ret; rewrite bind_gets, Ha; [reflexivity|].
    cbv zeta. rewrite code_valid_filter, code_invalid_filter, Hf1, Hf2. reflexivity.
Qed.

(** Witness of X9: positions [5,1] of the ActiveSet [A,B,C], and the list
    [7] out of range. *)
Lemma deactivate_multiple_prompts_ignores_invalid_witness :
  Controller.deactivate_multiple_prompts [5; 1]
    (set_active [prompt_A; prompt_B; prompt_C] session_P)
  = Controller.deactivate_multiple_prompts [1]
      (set_active [prompt_A; prompt_B; prompt_C] session_P)
  /\ exists m, Controller.deactivate_multiple_prompts [7]
                 (set_active [prompt_A; prompt_B; prompt_C] session_P)
               = (Ret (false, m, []),
                  set_active [prompt_A; prompt_B; prompt_C] session_P, []).
Proof.
  split.
  - apply (proj1 (deactivate_multiple_prompts_ignores_invalid
                    (set_active [prompt_A; prompt_B; prompt_C] session_P) [5; 1])).
    exists 1. simpl. split; [auto|lia].
  - apply (proj2 (deactivate_multiple_prompts_ignores_invalid
                    (set_active [prompt_A; prompt_B; prompt_C] session_P) [7])).
    + discriminate.
    + repeat constructor. simpl. lia.
Defined.

(** ** Presets: creation, switching, initialisation *)

(** The store and the persisted files of a state: the part that only
    [refresh_prompts], [create_preset] and the savers write. *)
Definition same_store (s s' : state) : Prop :=
  presets s' = presets s /\ activation_files s' = activation_files s
  /\ group_files s' = group_files s.

Definition keeps_store {A} (m : M A) : Prop :=
  forall s, same_store s (state_of (m s)).

Lemma keeps_store_pure {A} (m : M A) :
  (forall s, state_of (m s) = s) -> keeps_store m.
Proof. intros H s. rewrite H. repeat split. Qed.

Lemma keeps_store_bind {A B} (m : M A) (f : A -> M B) :
  keeps_store m -> (forall a, keeps_store (f a)) -> keeps_store (bind m f).
Proof.
  intros Hm Hf s. specialize (Hm s). unfold bind.
  destruct (m s) as [[[a|e] s1] t1]; unfold state_of in *; simpl in *; [|exact Hm].
  specialize (Hf a s1). unfold state_of in Hf.
  destruct (f a s1) as [[r s2] t2]. simpl in *.
  destruct Hm as (H1 & H2 & H3), Hf as (H1' & H2' & H3').
  repeat split; congruence.
Qed.

Lemma keeps_store_try {A} (m : M A) (h : exn -> M A) :
  keeps_store m -> (forall e, keeps_store (h e)) -> keeps_store (try_except m h).
Proof.
  intros Hm Hh s. specialize (Hm s). unfold try_except.
  destruct (m s) as [[[a|e] s1] t1]; unfold state_of in *; simpl in *; [exact Hm|].
  specialize (Hh e s1). unfold state_of in Hh.
  destruct (h e s1) as [[r s2] t2]. simpl in *.
  destruct Hm as (H1 & H2 & H3), Hh as (H1' & H2' & H3').
  repeat split; congruence.
Qed.

Lemma keeps_store_modify (g : state -> state) :
  (forall s, same_store s (g s)) -> keeps_store (modify g).
Proof. intros H s. apply H. Qed.

Ltac keeps_store_step :=
  match goal with
  | |- keeps_store (bind _ _) => apply keeps_store_bind; [|intro]
  | |- keeps_store (try_except _ _) => apply keeps_store_try; [|intro]
  | |- keeps_store (ret _) => apply keeps_store_pure; reflexivity
  | |- keeps_store (gets _) => apply keeps_store_pure; reflexivity
  | |- keeps_store (modify _) => apply keeps_store_modify; intro; repeat split
  | |- keeps_store (let _ := _ in _) => cbv zeta
  | |- keeps_store (match ?x with _ => _ end) => destruct x
  | |- keeps_store (if ?b then _ else _) => destruct b
  | |- keeps_store ((fun _ => _) _) => cbv beta
  end.

(** [switch_preset] never changes the store or the persisted files. *)
Lemma switch_preset_keeps_store (i : Z) : keeps_store (Controller.switch_preset i).
Proof.
  unfold Controller.switch_preset, PromptsManager.clear_active_prompts,
    GroupsManager.load_prompt_groups, PromptsManager.load_activation_state.
  repeat keeps_store_step.
Qed.

Lemma lookup_assoc_set {A} (k : string) (v : A) (l : list (string * A)) :
  lookup k (assoc_set k v l) = Some v.
Proof.
  induction l as [|[k' v'] l IH]; simpl; [rewrite String.eqb_refl; reflexivity|].
  destruct (String.eqb k k') eqn:E; simpl; [rewrite String.eqb_refl; reflexivity|].
  rewrite E. exact IH.
Qed.

Lemma switch_preset_in_range_run (s : state) (i : Z) :
  0 <= i < Z.of_nat (List.length (get_preset_list s)) ->
  let n := nth (Z.to_nat i) (get_preset_list s) "" in
  Controller.switch_preset i s
  = (Ret (true, MsgSwitched n),
     mkState n (presets s)
       (filter (fun m => prompt_in m (get_current_prompts (set_current n s)))
          (match lookup n (activation_files s) with Some l => l | None => [] end))
       (match lookup n (group_files s) with Some g => g | None => [] end)
       (group_files s) (activation_files s),
     []).
Proof.
  intros Hr. cbv zeta. unfold Controller.switch_preset.
  apply try_except_ret. rewrite bind_gets.
  destruct (get_preset_list s) as [|x xs] eqn:Hl; [simpl in Hr; lia|].
  replace (in_range (x :: xs) i) with true by (symmetry; apply in_range_true; exact Hr).
  reflexivity.
Qed.

(** X10: [switch_preset(index)] with an index inside the preset list
    selects the preset of that position, replaces the loaded groups by the
    groups persisted for it, and makes its persisted activation markers the
    ActiveSet, keeping only those equal to one of its prompts; the store
    and the persisted files are not modified. *)
Theorem switch_preset_in_range :
  forall (s : state) (i : Z),
    0 <= i < Z.of_nat (List.length (get_preset_list s)) ->
    let n := nth (Z.to_nat i) (get_preset_list s) "" in
    Controller.switch_preset i s
    = (Ret (true, MsgSwitched n),
       mkState n (presets s)
         (filter (fun m => prompt_in m (get_current_prompts (set_current n s)))
            (match lookup n (activation_files s) with Some l => l | None => [] end))
         (match lookup n (group_files s) with Some g => g | None => [] end)
         (group_files s) (activation_files s),
       []).
Proof. exact switch_preset_in_range_run. Qed.

(** Witness of X10: two presets, the markers of [Q] hold a stale prompt. *)
Lemma switch_preset_in_range_witness :
  Controller.switch_preset 1
    (mkState "P" [("P", mkPreset [prompt_A] ""); ("Q", mkPreset [prompt_B; prompt_C] "")]
       [prompt_A] [] [("Q", [("g", [0])])] [("Q", [prompt_C; prompt_D])])
  = (Ret (true, MsgSwitched "Q"),
     mkState "Q" [("P", mkPreset [prompt_A] ""); ("Q", mkPreset [prompt_B; prompt_C] "")]
       [prompt_C] [("g", [0])] [("Q", [("g", [0])])] [("Q", [prompt_C; prompt_D])],
     []).
Proof. apply switch_preset_in_range. simpl. lia. Defined.

(** Every active prompt is, by value, one of the current preset's
    prompts. *)
Definition active_in_current (s : state) : Prop :=
  Forall (fun p => prompt_in p (get_current_prompts s) = true) (active_prompts s).

Lemma filter_all_true {A} (f : A -> bool) (l : list A) :
  Forall (fun x => f x = true) l -> filter f l = l.
Proof. induction 1 as [|x l Hx _ IH]; simpl; [reflexivity|]. rewrite Hx, IH. reflexivity. Qed.

Lemma In_prompt_in (p : prompt) (l : list prompt) : In p l -> prompt_in p l = true.
Proof.
  intros H. unfold prompt_in. apply existsb_exists. exists p.
  split; [exact H|apply prompt_eqb_refl].
Qed.

(** X11: activations made with [activate_multiple_prompts] survive a
    round trip through another preset: starting from a session whose
    ActiveSet holds only prompts of the current preset and whose saved
    markers match it, after activating a non-empty list of valid indices,
    switching to any preset and switching back to the current one gives
    back the same ActiveSet. *)
Theorem activation_survives_switch_round_trip :
  forall (s : state) (ixs : list Z) (i j : Z),
    ixs <> [] -> valid_indices (get_current_prompts s) ixs ->
    active_in_current s ->
    lookup (current_preset_name s) (activation_files s) = Some (active_prompts s) ->
    0 <= i < Z.of_nat (List.length (get_preset_list s)) ->
    nth (Z.to_nat i) (get_preset_list s) "" = current_preset_name s ->
    let s1 := state_of (Controller.activate_multiple_prompts ixs s) in
    let s2 := state_of (Controller.switch_preset j s1) in
    active_prompts (state_of (Controller.switch_preset i s2)) = active_prompts s1.
Proof.
  intros s ixs i j Hne Hv Hinv Hsync Hi Hn. cbv zeta.
  destruct (activate_multiple_prompts_valid_run s ixs Hne Hv)
    as (added & Hfresh & _ & Hrun).
  assert (Hcur : current_preset_name s <> "").
  { intros E. unfold get_current_prompts in Hv. rewrite E in Hv. simpl in Hv.
    destruct ixs as [|i0 r]; [congruence|].
    inversion Hv as [|? ? Hi0]; simpl in Hi0; lia. }
  remember (state_of (Controller.activate_multiple_prompts ixs s)) as s1 eqn:Hs1.
  assert (H1 : presets s1 = presets s /\ current_preset_name s1 = current_preset_name s
               /\ active_prompts s1 = active_prompts s ++ added
               /\ lookup (current_preset_name s) (activation_files s1)
                  = Some (active_prompts s ++ added)).
  { rewrite Hs1, Hrun. destruct added as [|a added]; unfold state_of; simpl.
    - rewrite app_nil_r. auto.
    - rewrite lookup_assoc_set. auto. }
  destruct H1 as (Hp1 & Hc1 & Ha1 & Hl1).
  remember (state_of (Controller.switch_preset j s1)) as s2 eqn:Hs2.
  assert (Hst : same_store s1 s2) by (rewrite Hs2; apply switch_preset_keeps_store).
  destruct Hst as (Hp2 & Hf2 & _).
  assert (Hr2 : 0 <= i < Z.of_nat (List.length (get_preset_list s2))).
  { unfold get_preset_list in *. rewrite Hp2, Hp1. exact Hi. }
  rewrite (switch_preset_in_range_run s2 i Hr2). unfold state_of. simpl.
  assert (Hn2 : nth (Z.to_nat i) (get_preset_list s2) "" = current_preset_name s).
  { unfold get_preset_list in *. rewrite Hp2, Hp1. exact Hn. }
  rewrite Hn2, Hf2, Hl1, Ha1.
  apply filter_all_true. apply Forall_app. split.
  - unfold active_in_current in Hinv. eapply Forall_impl; [|exact Hinv].
    intros p Hp. unfold get_current_prompts, get_prompts in *. simpl.
    rewrite Hp2, Hp1. exact Hp.
  - apply Forall_forall. intros p Hp. destruct (Hfresh p Hp) as [Hin _].
    unfold get_current_prompts, get_prompts in *. simpl.
    destruct (String.eqb (current_preset_name s) "") eqn:E;
      [apply String.eqb_eq in E; contradiction|].
    try rewrite E in Hin. rewrite Hp2, Hp1. apply In_prompt_in. exact Hin.
Qed.

(** Witness of X11: activate [0,2] on preset [P] of a two-preset store,
    switch to [Q] and back. *)
Lemma activation_survives_switch_round_trip_witness :
  let s := mkState "P" [("P", mkPreset [prompt_A; prompt_B; prompt_C] "SYS");
                        ("Q", mkPreset [prompt_D] "")] [] [] [] [("P", [])] in
  let s1 := state_of (Controller.activate_multiple_prompts [0; 2] s) in
  let s2 := state_of (Controller.switch_preset 1 s1) in
  active_prompts (state_of (Controller.switch_preset 0 s2)) = active_prompts s1.
Proof.
  apply (activation_survives_switch_round_trip _ [0; 2] 0 1).
  - discriminate.
  - unfold valid_indices. simpl. repeat constructor; lia.
  - constructor.
  - reflexivity.
  - simpl. lia.
  - reflexivity.
Defined.

Lemma create_preset_run (s : state) (n : string) :
  Controller.create_preset n s
  = if String.eqb n "" then (Ret (false, MsgEmptyPresetName), s, [])
    else match lookup n (presets s) with
         | Some _ => (Ret (false, MsgPresetCreateFailed n), s, [])
         | None => (Ret (true, MsgPresetCreated n),
                    mkState n (presets s ++ [(n, mkPreset [] "")]) [] []
                      (group_files s) (activation_files s),
                    [])
         end.
Proof.
  unfold Controller.create_preset.
  destruct (String.eqb n "") eqn:E; [apply try_except_ret; reflexivity|].
  destruct (lookup n (presets s)) eqn:L; apply try_except_ret;
    unfold PresetsManager.create_preset, bind, gets; rewrite E, L; reflexivity.
Qed.

(** X12: [create_preset(name)] refuses an empty name or the name of an
    existing preset with a failure and no state change; otherwise it appends
    an empty preset of that name to the store, selects it, and empties the
    ActiveSet and the loaded groups (groups or markers persisted under that
    name are not loaded), leaving the persisted files alone. *)
Theorem create_preset_outcome :
  forall (s : state) (n : string),
    Controller.create_preset n s
    = if String.eqb n "" then (Ret (false, MsgEmptyPresetName), s, [])
      else match lookup n (presets s) with
           | Some _ => (Ret (false, MsgPresetCreateFailed n), s, [])
           | None => (Ret (true, MsgPresetCreated n),
                      mkState n (presets s ++ [(n, mkPreset [] "")]) [] []
                        (group_files s) (activation_files s),
                      [])
           end.
Proof. exact create_preset_run. Qed.

(** [Controller._initialize()] as run by the constructor.  Modelled from
    the spec: [PresetsManager.load_presets] (not in the sources) is the
    argument [loaded], the store it reads. *)
Definition _initialize (loaded : list (string * preset)) : M unit :=
  modify (set_presets loaded) ;;;
  preset_list <- gets get_preset_list ;;
  match preset_list with
  | first :: _ =>
      modify (set_current first) ;;;
      cur <- gets current_preset_name ;;
      GroupsManager.load_prompt_groups cur ;;;
      current_prompts <- gets get_current_prompts ;;
      PromptsManager.load_activation_state cur current_prompts
  | [] => ret tt
  end.

(** The state of a freshly constructed controller before [_initialize]:
    no preset selected, nothing active, no group loaded, the persisted
    files as found. *)
Definition fresh_state (group_files_ : list (string * list (string * list Z)))
    (activation_files_ : list (string * list prompt)) : state :=
  mkState "" [] [] [] group_files_ activation_files_.

(** X13: construction selects the first preset exactly as
    [switch_preset(0)] would: for every store and persisted files, the
    state after [_initialize] is the state reached by [switch_preset(0)]
    from the fresh controller with the store loaded (with an empty store,
    no preset is selected and nothing is loaded). *)
Theorem initialize_as_switch_to_first :
  forall (loaded : list (string * preset)) gf af,
    state_of (_initialize loaded (fresh_state gf af))
    = state_of (Controller.switch_preset 0 (set_presets loaded (fresh_state gf af))).
Proof.
  intros loaded gf af. unfold _initialize, Controller.switch_preset.
  destruct loaded as [|[n p] rest]; reflexivity.
Qed.

(** ** The ActiveSet stays inside the current prompt list *)

(** [s'] has the store and the selection of [s], and each of its active
    prompts was active in [s] or belongs to [X]. *)
Definition within (X : list prompt) (s s' : state) : Prop :=
  presets s' = presets s /\ current_preset_name s' = current_preset_name s
  /\ forall p, In p (active_prompts s') -> In p (active_prompts s) \/ In p X.

(** Run from a state whose current prompt list is [X], [m] ends in a state
    [within X] of it. *)
Definition stays_within {A} (X : list prompt) (m : M A) : Prop :=
  forall s, get_current_prompts s = X -> within X s (state_of (m s)).

Lemma within_gcp (X : list prompt) (s s' : state) :
  within X s s' -> get_current_prompts s' = get_current_prompts s.
Proof.
  intros (Hp & Hc & _). unfold get_current_prompts, get_prompts. rewrite Hp, Hc.
  reflexivity.
Qed.

Lemma stays_within_pure {A} (X : list prompt) (m : M A) :
  (forall s, state_of (m s) = s) -> stays_within X m.
Proof. intros H s _. rewrite H. split; [reflexivity|split; [reflexivity|auto]]. Qed.

Lemma stays_within_bind {A B} (X : list prompt) (m : M A) (f : A -> M B) :
  stays_within X m -> (forall a, stays_within X (f a)) -> stays_within X (bind m f).
Proof.
  intros Hm Hf s HX. specialize (Hm s HX). unfold bind.
  destruct (m s) as [[[a|e] s1] t1]; unfold state_of in *; simpl in *; [|exact Hm].
  assert (HX1 : get_current_prompts s1 = X) by (rewrite (within_gcp _ _ _ Hm); exact HX).
  specialize (Hf a s1 HX1). unfold state_of in Hf.
  destruct (f a s1) as [[r s2] t2]. simpl in *.
  destruct Hm as (H1 & H2 & H3), Hf as (H1' & H2' & H3').
  split; [congruence|split; [congruence|]].
  intros p Hp. destruct (H3' p Hp) as [Hq|Hq]; [apply H3; exact Hq|right; exact Hq].
Qed.

Lemma stays_within_try {A} (X : list prompt) (m : M A) (h : exn -> M A) :
  stays_within X m -> (forall e, stays_within X (h e)) -> stays_within X (try_except m h).
Proof.
  intros Hm Hh s HX. specialize (Hm s HX). unfold try_except.
  destruct (m s) as [[[a|e] s1] t1]; unfold state_of in *; simpl in *; [exact Hm|].
  assert (HX1 : get_current_prompts s1 = X) by (rewrite (within_gcp _ _ _ Hm); exact HX).
  specialize (Hh e s1 HX1). unfold state_of in Hh.
  destruct (h e s1) as [[r s2] t2]. simpl in *.
  destruct Hm as (H1 & H2 & H3), Hh as (H1' & H2' & H3').
  split; [congruence|split; [congruence|]].
  intros p Hp. destruct (H3' p Hp) as [Hq|Hq]; [apply H3; exact Hq|right; exact Hq].
Qed.

Lemma stays_within_modify (X : list prompt) (g : state -> state) :
  (forall s, get_current_prompts s = X -> within X s (g s)) -> stays_within X (modify g).
Proof. intros H s HX. apply H. exact HX. Qed.

(** The current prompt list read at the start is [X] itself. *)
Lemma stays_within_gets_gcp {B} (X : list prompt) (f : list prompt -> M B) :
  stays_within X (f X) -> stays_within X (bind (gets get_current_prompts) f).
Proof. intros H s HX. rewrite bind_gets, HX. apply H. exact HX. Qed.

Lemma py_getitem_state {A} (l : list A) (i : Z) (s : state) :
  state_of (py_getitem l i s) = s.
Proof.
  unfold py_getitem. cbv zeta.
  destruct (_ && _); [destruct (nth_error _ _)|]; reflexivity.
Qed.

Lemma py_getitem_value {A} (l : list A) (i : Z) (s : state) (x : A) s1 t :
  py_getitem l i s = (Ret x, s1, t) -> In x l.
Proof.
  unfold py_getitem. cbv zeta.
  destruct (_ && _); [destruct (nth_error _ _) eqn:E|]; unfold ret, raise;
    intros H; inversion H; subst. eapply nth_error_In. exact E.
Qed.

Lemma stays_within_activate_loop (X : list prompt) (ixs : list Z) (newly : list prompt) :
  stays_within X (PromptsManager.activate_loop X ixs newly).
Proof.
  revert newly. induction ixs as [|i ixs IH]; intros newly s HX; simpl.
  - split; [reflexivity|split; [reflexivity|auto]].
  - unfold bind at 1.
    destruct (py_getitem X i s) as [[[p|e] s1] t1] eqn:G.
    + pose proof (py_getitem_state X i s) as Hs. rewrite G in Hs. unfold state_of in Hs.
      simpl in Hs. subst s1. apply py_getitem_value in G.
      rewrite bind_gets.
      destruct (prompt_in p (active_prompts s)).
      * specialize (IH newly s HX). unfold state_of in *.
        destruct (PromptsManager.activate_loop X ixs newly s) as [[r s2] t2]. exact IH.
      * rewrite bind_modify.
        specialize (IH (newly ++ [p]) (set_active (active_prompts s ++ [p]) s) HX).
        unfold state_of in *.
        destruct (PromptsManager.activate_loop X ixs (newly ++ [p])
                    (set_active (active_prompts s ++ [p]) s)) as [[r s2] t2].
        simpl in *. destruct IH as (H1 & H2 & H3).
        split; [exact H1|split; [exact H2|]].
        intros q Hq. destruct (H3 q Hq) as [Hq'|Hq']; [|right; exact Hq'].
        simpl in Hq'. apply in_app_or in Hq' as [Hq'|[<-|[]]]; [left|right]; assumption.
    + pose proof (py_getitem_state X i s) as Hs. rewrite G in Hs. unfold state_of in Hs.
      simpl in Hs. subst s1. unfold state_of. simpl.
      split; [reflexivity|split; [reflexivity|auto]].
Qed.

Lemma stays_within_activate_prompts (X : list prompt) (ixs : list Z) :
  stays_within X (PromptsManager.activate_prompts X ixs).
Proof.
  unfold PromptsManager.activate_prompts. apply stays_within_bind.
  - apply stays_within_pure. reflexivity.
  - intros _. apply stays_within_activate_loop.
Qed.

Lemma In_remove_at {A} (x : A) (k : nat) (l : list A) :
  In x (PromptsManager.remove_at k l) -> In x l.
Proof.
  revert k. induction l as [|y l IH]; intros k.
  - unfold PromptsManager.remove_at. rewrite firstn_nil. simpl. auto.
  - destruct k as [|k].
    + unfold PromptsManager.remove_at. simpl. auto.
    + change (PromptsManager.remove_at (S k) (y :: l))
        with (y :: PromptsManager.remove_at k l).
      intros [->|H]; [left; reflexivity|right; eapply IH; exact H].
Qed.

Lemma stays_within_deactivate_prompt (X : list prompt) (k : Z) :
  stays_within X (PromptsManager.deactivate_prompt k).
Proof.
  intros s _. unfold PromptsManager.deactivate_prompt. rewrite bind_gets.
  destruct (in_range (active_prompts s) k); [destruct (nth_error _ _)|];
    [rewrite bind_modify| |]; unfold state_of; simpl;
    split; try reflexivity; split; try reflexivity; intros q Hq; left; auto.
  eapply In_remove_at. exact Hq.
Qed.

Lemma stays_within_deactivate_by_reference (X targets : list prompt) :
  stays_within X (PromptsManager.deactivate_prompts_by_reference targets).
Proof.
  intros s _. unfold PromptsManager.deactivate_prompts_by_reference.
  rewrite bind_gets, bind_modify. unfold state_of. simpl.
  split; [reflexivity|split; [reflexivity|]]. intros p Hp. left.
  apply filter_In in Hp. apply Hp.
Qed.

Ltac stays_within_step :=
  match goal with
  | |- stays_within _ (bind (gets get_current_prompts) _) =>
      apply stays_within_gets_gcp
  | |- stays_within ?X (PromptsManager.activate_prompts ?X _) =>
      apply stays_within_activate_prompts
  | |- stays_within _ (PromptsManager.deactivate_prompt _) =>
      apply stays_within_deactivate_prompt
  | |- stays_within _ (PromptsManager.deactivate_prompts_by_reference _) =>
      apply stays_within_deactivate_by_reference
  | |- stays_within _ (bind _ _) => apply stays_within_bind; [|intro]
  | |- stays_within _ (try_except _ _) => apply stays_within_try; [|intro]
  | |- stays_within _ (ret _) => apply stays_within_pure; reflexivity
  | |- stays_within _ (gets _) => apply stays_within_pure; reflexivity
  | |- stays_within _ (raise _) => apply stays_within_pure; reflexivity
  | |- stays_within _ (py_getitem _ _) => apply stays_within_pure; apply py_getitem_state
  | |- stays_within _ (modify _) =>
      apply stays_within_modify; intros ? _;
      split; [reflexivity|split; [reflexivity|intros ? ?; simpl in *; tauto]]
  | |- stays_within _ (let _ := _ in _) => cbv zeta
  | |- stays_within _ (match ?x with _ => _ end) => destruct x
  | |- stays_within _ (if ?b then _ else _) => destruct b
  | |- stays_within _ ((fun _ => _) _) => cbv beta
  end.

Lemma stays_within_deactivate_loop (X : list prompt) (ixs : list Z) (acc : list prompt) :
  stays_within X (Controller.deactivate_loop ixs acc).
Proof.
  revert acc. induction ixs as [|i ixs IH]; intros acc; simpl;
    repeat (apply IH || stays_within_step).
Qed.

Ltac stays_within_tac :=
  unfold PromptsManager.save_activation_state, PromptsManager.clear_active_prompts;
  repeat (apply stays_within_deactivate_loop || stays_within_step).

Lemma within_active_in_current (s s' : state) :
  within (get_current_prompts s) s s' -> active_in_current s -> active_in_current s'.
Proof.
  intros Hw Hinv. pose proof (within_gcp _ _ _ Hw) as Hg.
  destruct Hw as (_ & _ & Hin). unfold active_in_current in *.
  rewrite Hg. apply Forall_forall. intros p Hp.
  destruct (Hin p Hp) as [Hq|Hq].
  - rewrite Forall_forall in Hinv. apply Hinv. exact Hq.
  - apply In_prompt_in. exact Hq.
Qed.

Lemma activation_ops_stay_within (X : list prompt) (i : Z) (ixs : list Z) (g : string) :
  stays_within X (Controller.activate_prompt i)
  /\ stays_within X (Controller.activate_multiple_prompts ixs)
  /\ stays_within X (Controller.activate_prompt_group g)
  /\ stays_within X (Controller.deactivate_prompt i)
  /\ stays_within X (Controller.deactivate_multiple_prompts ixs)
  /\ stays_within X (Controller.deactivate_prompt_group g)
  /\ stays_within X Controller.clear_active_prompts.
Proof.
  split; [|split; [|split; [|split; [|split; [|split]]]]].
  - unfold Controller.activate_prompt. stays_within_tac.
  - unfold Controller.activate_multiple_prompts. stays_within_tac.
  - unfold Controller.activate_prompt_group. stays_within_tac.
  - unfold Controller.deactivate_prompt. stays_within_tac.
  - unfold Controller.deactivate_multiple_prompts. stays_within_tac.
  - unfold Controller.deactivate_prompt_group. stays_within_tac.
  - unfold Controller.clear_active_prompts. stays_within_tac.
Qed.

Lemma switch_preset_out_of_range_run (s : state) (i : Z) :
  ~ (0 <= i < Z.of_nat (List.length (get_preset_list s))) ->
  state_of (Controller.switch_preset i s) = s.
Proof.
  intros Hout. unfold Controller.switch_preset.
  rewrite (try_except_ret _ _ s s
             (false, match get_preset_list s with
                     | [] => MsgNoPresets | _ => MsgInvalidPresetIndex i end) []);
    [reflexivity|].
  rewrite bind_gets. destruct (get_preset_list s) as [|x xs]; [reflexivity|].
  rewrite (in_range_false _ _ Hout). reflexivity.
Qed.

Lemma refresh_prompts_active (ex : option (list (string * preset))) (s : state) :
  match ex with
  | Some _ => active_prompts (state_of (Controller.refresh_prompts ex s)) = []
  | None => state_of (Controller.refresh_prompts ex s) = s
  end.
Proof.
  destruct ex as [store|]; [|reflexivity].
  destruct store as [|[n p] rest]; reflexivity.
Qed.

Lemma state_of_fmap {A B} (f : A -> B) (m : M A) (s : state) :
  state_of (fmap f m s) = state_of (m s).
Proof.
  unfold fmap, bind. destruct (m s) as [[[a|e] s1] t]; reflexivity.
Qed.

Lemma Forall_filter_true {A} (f : A -> bool) (l : list A) :
  Forall (fun x => f x = true) (filter f l).
Proof.
  apply Forall_forall. intros x Hx. apply filter_In in Hx. apply Hx.
Qed.

(** X14: every public method of the controller keeps the invariant that
    each prompt of the ActiveSet is, by value, one of the current preset's
    prompts: every operation of [run_op], that is switching presets,
    creating a preset, reloading the store, every activation and
    deactivation method (whatever the outcome, an internal error included),
    the accessors and [process_llm_request]. *)
Theorem public_methods_keep_active_in_current :
  forall (o : op) (s : state),
    active_in_current s -> active_in_current (state_of (run_op o s)).
Proof.
  intros o s Hinv.
  assert (Hw : forall A (m : M A), stays_within (get_current_prompts s) m ->
                         active_in_current (state_of (m s))).
  { intros A m Hm. apply (within_active_in_current s); [|exact Hinv].
    apply Hm. reflexivity. }
  destruct o; cbn [run_op]; rewrite ?state_of_fmap; try exact Hinv.
  - (* switch_preset *)
    destruct (in_range (get_preset_list s) index) eqn:E.
    + apply in_range_true in E. rewrite (switch_preset_in_range_run s index E).
      apply Forall_filter_true.
    + rewrite switch_preset_out_of_range_run; [exact Hinv|].
      intros H. apply in_range_true in H. congruence.
  - (* create_preset *)
    rewrite create_preset_run.
    destruct (String.eqb n ""); [exact Hinv|].
    destruct (lookup n (presets s)); [exact Hinv|constructor].
  - (* refresh_prompts *)
    pose proof (refresh_prompts_active extracted s) as H.
    destruct extracted; [unfold active_in_current; rewrite H; constructor|rewrite H; exact Hinv].
  - apply Hw, (proj1 (activation_ops_stay_within _ index [] "")).
  - apply Hw, (proj1 (proj2 (activation_ops_stay_within _ 0 indices ""))).
  - apply Hw, (proj1 (proj2 (proj2 (activation_ops_stay_within _ 0 [] group_name)))).
  - apply Hw, (proj1 (proj2 (proj2 (proj2 (activation_ops_stay_within _ index [] ""))))).
  - apply Hw,
      (proj1 (proj2 (proj2 (proj2 (proj2 (activation_ops_stay_within _ 0 indices "")))))).
  - apply Hw, (proj1 (proj2 (proj2 (proj2 (proj2 (proj2
      (activation_ops_stay_within _ 0 [] group_name))))))).
  - apply Hw, (proj2 (proj2 (proj2 (proj2 (proj2 (proj2
      (activation_ops_stay_within _ 0 [] ""))))))).
Qed.

(** Witness of X14: prompt [B] active on preset [P], then [C] activated. *)
Lemma public_methods_keep_active_in_current_witness :
  let s := mkState "P" [("P", mkPreset [prompt_A; prompt_B; prompt_C] "SYS")]
             [prompt_B] [] [] [] in
  active_in_current s /\ active_in_current (state_of (run_op (OpActivatePrompt 2) s)).
Proof.
  intros s.
  assert (H : active_in_current s) by (apply Forall_cons; [reflexivity|constructor]).
  split; [exact H|].
  apply (public_methods_keep_active_in_current (OpActivatePrompt 2) s H).
Defined.



Lemma eqb_empty_false (x : string) : x <> "" -> String.eqb x "" = false.
Proof. intros H. apply String.eqb_neq. exact H. Qed.

(** X15: [add_prompt(name, content)] reaches [add_prompt_to_preset] only
    when a preset is selected and both the name and the content are
    non-empty; otherwise it fails and changes nothing, whatever the
    collaborator.  When it does reach it, with the current preset and the
    store, it returns success with the prompt the collaborator returned, a
    failure when it returned none, and a failure (not an exception) when it
    raised, keeping whatever state the collaborator left. *)
Theorem add_prompt_guard_and_delegation :
  forall add (s : state) (n c : string),
    (current_preset_name s = "" \/ n = "" \/ c = "" ->
     exists m, ControllerEditing.add_prompt add n c s = (Ret (false, m, None), s, []))
    /\ (current_preset_name s <> "" -> n <> "" -> c <> "" ->
        ControllerEditing.add_prompt add n c s
        = let '(r, s1, t) := add n c (current_preset_name s) (presets s) s in
          (match r with
           | Ret (Some p) => Ret (true, EMsgPromptAdded n, Some p)
           | Ret None => Ret (false, EMsgAddFailed, None)
           | Raise _ => Ret (false, EMsgAddInternalError, None)
           end, s1, t)).
Proof.
  intros add s n c. unfold ControllerEditing.add_prompt. split.
  - intros H.
    destruct (String.eqb (current_preset_name s) "") eqn:E1;
      [eexists; apply try_except_ret; rewrite bind_gets; cbv beta; rewrite ?E1; reflexivity|].
    destruct (String.eqb n "") eqn:E2;
      [eexists; apply try_except_ret; rewrite bind_gets; cbv beta; rewrite ?E1, ?E2; reflexivity|].
    destruct (String.eqb c "") eqn:E3;
      [eexists; apply try_except_ret; rewrite bind_gets; cbv beta; rewrite ?E1, ?E2, ?E3; reflexivity|].
    apply String.eqb_neq in E1, E2, E3. tauto.
  - intros H1 H2 H3. unfold try_except.
    rewrite bind_gets; cbv beta; rewrite !eqb_empty_false by assumption. rewrite bind_gets.
    unfold bind. destruct (add n c _ _ s) as [[[[p|]|e] s1] t]; simpl;
      rewrite ?app_nil_r; reflexivity.
Qed.

(** The collaborator of the witnesses: adds nothing, returns the prompt
    it would add. *)
Definition echo_add (n c : string) (_ : string) (_ : list (string * preset))
  : M (option prompt) := ret (Some (mkPrompt n c UserCreated)).

(** Witness of X15: an empty content on preset [P], then a valid call. *)
Lemma add_prompt_guard_and_delegation_witness :
  (exists m, ControllerEditing.add_prompt echo_add "N" "" session_P
             = (Ret (false, m, None), session_P, []))
  /\ ControllerEditing.add_prompt echo_add "N" "x" session_P
     = (Ret (true, EMsgPromptAdded "N", Some (mkPrompt "N" "x" UserCreated)),
        session_P, []).
Proof.
  split.
  - apply (proj1 (add_prompt_guard_and_delegation echo_add session_P "N" "")).
    right. right. reflexivity.
  - apply (proj2 (add_prompt_guard_and_delegation echo_add session_P "N" "x"));
      discriminate.
Defined.

(** X16: [update_prompt(index, name, content)] reaches
    [PromptsManager.update_prompt] only when a preset is selected, the new
    name and content are non-empty and the index is inside the current
    prompt list; otherwise it fails and changes nothing, whatever the
    collaborator.  When it does reach it, with that index, the current
    preset and its prompt list, it returns success with the updated prompt,
    a failure when none is returned, and a failure (not an exception) when
    the collaborator raised, keeping the state it left. *)
Theorem update_prompt_guard_and_delegation :
  forall upd (s : state) (i : Z) (n c : string),
    (current_preset_name s = "" \/ n = "" \/ c = ""
     \/ ~ (0 <= i < Z.of_nat (List.length (get_current_prompts s))) ->
     exists m, ControllerEditing.update_prompt upd i n c s = (Ret (false, m, None), s, []))
    /\ (current_preset_name s <> "" -> n <> "" -> c <> "" ->
        0 <= i < Z.of_nat (List.length (get_current_prompts s)) ->
        ControllerEditing.update_prompt upd i n c s
        = let '(r, s1, t) := upd i n c (current_preset_name s) (get_current_prompts s) s in
          (match r with
           | Ret (Some p) => Ret (true, EMsgPromptUpdated n, Some p)
           | Ret None => Ret (false, EMsgUpdateFailed, None)
           | Raise _ => Ret (false, EMsgUpdateInternalError, None)
           end, s1, t)).
Proof.
  intros upd s i n c. unfold ControllerEditing.update_prompt. split.
  - intros H.
    destruct (String.eqb (current_preset_name s) "") eqn:E1;
      [eexists; apply try_except_ret; rewrite bind_gets; cbv beta; rewrite ?E1; reflexivity|].
    destruct (String.eqb n "") eqn:E2;
      [eexists; apply try_except_ret; rewrite bind_gets; cbv beta; rewrite ?E1, ?E2; reflexivity|].
    destruct (String.eqb c "") eqn:E3;
      [eexists; apply try_except_ret; rewrite bind_gets; cbv beta; rewrite ?E1, ?E2, ?E3; reflexivity|].
    apply String.eqb_neq in E1, E2, E3.
    assert (Hout : ~ (0 <= i < Z.of_nat (List.length (get_current_prompts s)))) by tauto.
    destruct (get_current_prompts s) as [|q qs] eqn:Hall; eexists;
      apply try_except_ret; rewrite bind_gets; cbv beta;
      rewrite !eqb_empty_false by assumption; rewrite bind_gets, Hall;
      [reflexivity|].
    rewrite (in_range_false _ _ Hout). reflexivity.
  - intros H1 H2 H3 Hr. unfold try_except.
    rewrite bind_gets; cbv beta; rewrite !eqb_empty_false by assumption. rewrite bind_gets.
    destruct (py_getitem_in_range _ _ Hr) as (x & _ & Hget).
    destruct (get_current_prompts s) as [|q qs] eqn:Hall; [simpl in Hr; lia|].
    replace (in_range (q :: qs) i) with true by (symmetry; apply in_range_true; exact Hr).
    rewrite (bind_run _ _ _ _ _ (Hget s)).
    unfold bind. destruct (upd i n c _ _ s) as [[[[p|]|e] s1] t]; simpl;
      rewrite ?app_nil_r; reflexivity.
Qed.

(** The collaborator of the witnesses: returns the prompt at that
    position, renamed, and stores nothing. *)
Definition echo_update (i : Z) (n c : string) (_ : string) (all : list prompt)
  : M (option prompt) := ret (Some (mkPrompt n c UserCreated)).

(** Witness of X16: index 5 on preset [P], then index 2. *)
Lemma update_prompt_guard_and_delegation_witness :
  (exists m, ControllerEditing.update_prompt echo_update 5 "N" "x" session_P
             = (Ret (false, m, None), session_P, []))
  /\ ControllerEditing.update_prompt echo_update 2 "N" "x" session_P
     = (Ret (true, EMsgPromptUpdated "N", Some (mkPrompt "N" "x" UserCreated)),
        session_P, []).
Proof.
  split.
  - apply (proj1 (update_prompt_guard_and_delegation echo_update session_P 5 "N" "x")).
    right. right. right. simpl. lia.
  - apply (proj2 (update_prompt_guard_and_delegation echo_update session_P 2 "N" "x"));
      [discriminate|discriminate|discriminate|simpl; lia].
Defined.

(** X17: [delete_prompt(index)] reaches [PromptsManager.delete_prompt]
    only when a preset is selected and the index is inside the current
    prompt list; otherwise it fails and changes nothing, whatever the
    collaborator.  When it does reach it, it returns success with the
    deleted prompt (and its name in the message), a failure when none is
    returned, and a failure (not an exception) when the collaborator
    raised, keeping the state it left. *)
Theorem delete_prompt_guard_and_delegation :
  forall del (s : state) (i : Z),
    (current_preset_name s = ""
     \/ ~ (0 <= i < Z.of_nat (List.length (get_current_prompts s))) ->
     exists m, ControllerEditing.delete_prompt del i s = (Ret (false, m, None), s, []))
    /\ (current_preset_name s <> "" ->
        0 <= i < Z.of_nat (List.length (get_current_prompts s)) ->
        ControllerEditing.delete_prompt del i s
        = let '(r, s1, t) := del i (current_preset_name s) (get_current_prompts s) s in
          (match r with
           | Ret (Some p) => Ret (true, EMsgPromptDeleted (name p), Some p)
           | Ret None => Ret (false, EMsgDeleteFailed, None)
           | Raise _ => Ret (false, EMsgDeleteInternalError, None)
           end, s1, t)).
Proof.
  intros del s i. unfold ControllerEditing.delete_prompt. split.
  - intros H.
    destruct (String.eqb (current_preset_name s) "") eqn:E1;
      [eexists; apply try_except_ret; rewrite bind_gets; cbv beta; rewrite ?E1; reflexivity|].
    apply String.eqb_neq in E1.
    assert (Hout : ~ (0 <= i < Z.of_nat (List.length (get_current_prompts s)))) by tauto.
    destruct (get_current_prompts s) as [|q qs] eqn:Hall; eexists;
      apply try_except_ret; rewrite bind_gets; cbv beta;
      rewrite !eqb_empty_false by assumption; rewrite bind_gets, Hall;
      [reflexivity|].
    rewrite (in_range_false _ _ Hout). reflexivity.
  - intros H1 Hr. unfold try_except.
    rewrite bind_gets; cbv beta; rewrite !eqb_empty_false by assumption. rewrite bind_gets.
    destruct (get_current_prompts s) as [|q qs] eqn:Hall; [simpl in Hr; lia|].
    replace (in_range (q :: qs) i) with true by (symmetry; apply in_range_true; exact Hr).
    unfold bind. destruct (del i _ _ s) as [[[[p|]|e] s1] t]; simpl;
      rewrite ?app_nil_r; reflexivity.
Qed.

(** The collaborator of the witnesses: returns the prompt at that position
    and stores nothing. *)
Definition echo_delete (i : Z) (_ : string) (all : list prompt) : M (option prompt) :=
  ret (nth_error all (Z.to_nat i)).

(** Witness of X17: index -1 on preset [P], then index 0. *)
Lemma delete_prompt_guard_and_delegation_witness :
  (exists m, ControllerEditing.delete_prompt echo_delete (-1) session_P
             = (Ret (false, m, None), session_P, []))
  /\ ControllerEditing.delete_prompt echo_delete 0 session_P
     = (Ret (true, EMsgPromptDeleted "A", Some prompt_A), session_P, []).
Proof.
  split.
  - apply (proj1 (delete_prompt_guard_and_delegation echo_delete session_P (-1))).
    right. lia.
  - apply (proj2 (delete_prompt_guard_and_delegation echo_delete session_P 0));
      [discriminate|simpl; lia].
Defined.

(** X18: the group editing methods refuse before reaching
    [GroupsManager], leaving the state untouched and recording nothing,
    whatever the collaborators: all three when no preset is selected,
    [create_prompt_group] when the name is empty, and
    [update_prompt_group] and [delete_prompt_group] when the name is not a
    key of the loaded groups. *)
Theorem group_editing_guards :
  forall cg ug dg (s : state) (n : string) (ixs : list Z),
    (current_preset_name s = "" ->
       ControllerEditing.create_prompt_group cg n ixs s
         = (Ret (false, EMsgNoPresetSelected), s, [])
       /\ ControllerEditing.update_prompt_group ug n ixs s
         = (Ret (false, EMsgNoPresetSelected), s, [])
       /\ ControllerEditing.delete_prompt_group dg n s
         = (Ret (false, EMsgNoPresetSelected), s, []))
    /\ (current_preset_name s <> "" -> n = "" ->
       ControllerEditing.create_prompt_group cg n ixs s
         = (Ret (false, EMsgEmptyGroupName), s, []))
    /\ (current_preset_name s <> "" -> lookup n (prompt_groups s) = None ->
       ControllerEditing.update_prompt_group ug n ixs s
         = (Ret (false, EMsgGroupNotFound n), s, [])
       /\ ControllerEditing.delete_prompt_group dg n s
         = (Ret (false, EMsgGroupNotFound n), s, [])).
Proof.
  intros cg ug dg s n ixs.
  unfold ControllerEditing.create_prompt_group, ControllerEditing.update_prompt_group,
    ControllerEditing.delete_prompt_group.
  split; [|split].
  - intros H. repeat split; apply try_except_ret; rewrite bind_gets; cbv beta;
      rewrite H; reflexivity.
  - intros H1 H2. subst n. apply try_except_ret; rewrite bind_gets; cbv beta;
      rewrite eqb_empty_false by assumption; reflexivity.
  - intros H1 H2. split; apply try_except_ret; rewrite bind_gets; cbv beta;
      rewrite eqb_empty_false by assumption; rewrite bind_gets; cbv beta;
      rewrite H2; reflexivity.
Qed.

(** Group collaborators of the witnesses: they succeed and store
    nothing. *)
Definition accept_group (_ : string) (_ : list Z) (_ : string) (_ : list prompt)
  : M bool := ret true.
Definition accept_delete (_ : string) (_ : string) : M bool := ret true.

(** Witness of X18: no preset selected; an empty name on preset [P]; an
    unknown group name on preset [P]. *)
Lemma group_editing_guards_witness :
  (ControllerEditing.create_prompt_group accept_group "g" [0] (fresh_state [] [])
     = (Ret (false, EMsgNoPresetSelected), fresh_state [] [], []))
  /\ ControllerEditing.create_prompt_group accept_group "" [0] session_P
     = (Ret (false, EMsgEmptyGroupName), session_P, [])
  /\ ControllerEditing.delete_prompt_group accept_delete "g" session_P
     = (Ret (false, EMsgGroupNotFound "g"), session_P, []).
Proof.
  split; [|split].
  - apply (proj1 (group_editing_guards accept_group accept_group accept_delete
                    (fresh_state [] []) "g" [0]) eq_refl).
  - apply (proj1 (proj2 (group_editing_guards accept_group accept_group accept_delete
                           session_P "" [0]))); [discriminate|reflexivity].
  - apply (proj2 (proj2 (group_editing_guards accept_group accept_group accept_delete
                           session_P "g" [0])));
      [discriminate|reflexivity].
Defined.

(** X19: past those guards the controller does not look at the indices:
    [create_prompt_group] and [update_prompt_group] hand any index list,
    with the current preset and its prompt list, to [GroupsManager], and
    [delete_prompt_group] hands it the name and the preset.  The result is
    success or failure as the collaborator answers, and a failure (not an
    exception) when it raised, with the state it left. *)
Theorem group_editing_delegation :
  forall cg ug dg (s : state) (n : string) (ixs : list Z),
    (current_preset_name s <> "" -> n <> "" ->
       ControllerEditing.create_prompt_group cg n ixs s
       = let '(r, s1, t) := cg n ixs (current_preset_name s) (get_current_prompts s) s in
         (match r with
          | Ret true => Ret (true, EMsgGroupCreated n)
          | Ret false => Ret (false, EMsgGroupCreateFailed n)
          | Raise _ => Ret (false, EMsgGroupCreateInternalError n)
          end, s1, t))
    /\ (current_preset_name s <> "" -> lookup n (prompt_groups s) <> None ->
       ControllerEditing.update_prompt_group ug n ixs s
       = (let '(r, s1, t) := ug n ixs (current_preset_name s) (get_current_prompts s) s in
         (match r with
          | Ret true => Ret (true, EMsgGroupUpdated n)
          | Ret false => Ret (false, EMsgGroupUpdateFailed n)
          | Raise _ => Ret (false, EMsgGroupUpdateInternalError n)
          end, s1, t))
       /\ ControllerEditing.delete_prompt_group dg n s
       = let '(r, s1, t) := dg n (current_preset_name s) s in
         (match r with
          | Ret true => Ret (true, EMsgGroupDeleted n)
          | Ret false => Ret (false, EMsgGroupDeleteFailed n)
          | Raise _ => Ret (false, EMsgGroupDeleteInternalError n)
          end, s1, t)).
Proof.
  intros cg ug dg s n ixs.
  unfold ControllerEditing.create_prompt_group, ControllerEditing.update_prompt_group,
    ControllerEditing.delete_prompt_group, try_except.
  split.
  - intros H1 H2. rewrite bind_gets; cbv beta.
    rewrite !eqb_empty_false by assumption. rewrite bind_gets; cbv beta.
    unfold bind. destruct (cg n ixs _ _ s) as [[[[|]|e] s1] t]; simpl;
      rewrite ?app_nil_r; reflexivity.
  - intros H1 H2. destruct (lookup n (prompt_groups s)) as [g|] eqn:L;
      [|contradiction]. split.
    + rewrite bind_gets; cbv beta.
      rewrite eqb_empty_false by assumption. rewrite bind_gets; cbv beta.
      rewrite L, bind_gets; cbv beta.
      unfold bind. destruct (ug n ixs _ _ s) as [[[[|]|e] s1] t]; simpl;
        rewrite ?app_nil_r; reflexivity.
    + rewrite bind_gets; cbv beta.
      rewrite eqb_empty_false by assumption. rewrite bind_gets; cbv beta.
      rewrite L.
      unfold bind. destruct (dg n _ s) as [[[[|]|e] s1] t]; simpl;
        rewrite ?app_nil_r; reflexivity.
Qed.

(** Witness of X19: on preset [P] with a group [g], an index list that is
    out of range of the three prompts still reaches the collaborator. *)
Lemma group_editing_delegation_witness :
  let s := mkState "P" [("P", mkPreset [prompt_A; prompt_B; prompt_C] "SYS")] []
             [("g", [0])] [] [] in
  ControllerEditing.create_prompt_group accept_group "h" [9] s
    = (Ret (true, EMsgGroupCreated "h"), s, [])
  /\ ControllerEditing.update_prompt_group accept_group "g" [9] s
    = (Ret (true, EMsgGroupUpdated "g"), s, []).
Proof.
  intros s. split.
  - apply (proj1 (group_editing_delegation accept_group accept_group accept_delete
                    s "h" [9])); discriminate.
  - apply (proj2 (group_editing_delegation accept_group accept_group accept_delete
                    s "g" [9])); discriminate.
Defined.
End PromptTools.
